(** * Verification of the logo generation script [gen.py]

    The script recolours one SVG document, rasterises it to a fixed matrix
    of colours and sizes, and writes a Markdown table of the results.  This
    file embeds [gen.py] in Rocq and proves the properties stated in the
    specification of the repository.

    Modelling conventions.
    - A Python [str] is a Rocq [string]: the UTF-8 encoding of the text.
      All the separators the script looks for are ASCII, so searching and
      splitting the encoded text agrees with doing it on code points.
    - A Python [int] is a [Z].
    - The dictionary [COLOR_MAPPING] is a [gmap string string].
    - The file system and the rasteriser are the outside world: a record
      of files, directories and a trace of the effects performed, and a
      function taken as a section variable.
    - A computation is a function from the machine state to the new state
      and either a value or the exception raised; the state reached when
      an exception is raised is kept, as in Python. *)

From Stdlib Require Import ZArith List Ascii String DecimalString Sorting.Sorted.
From stdpp Require Import gmap strings list fin_maps.

Import ListNotations.
Local Open Scope string_scope.
Local Open Scope Z_scope.

(** ** Python strings *)

Module PyStr.

(** [s.startswith(p)]. *)
Fixpoint startswith (p s : string) : bool :=
  match p, s with
  | EmptyString, _ => true
  | String _ _, EmptyString => false
  | String a p', String b s' => Ascii.eqb a b && startswith p' s'
  end.

(** [s[n:]] for [n >= 0]. *)
Fixpoint drop (n : nat) (s : string) : string :=
  match n, s with
  | O, _ => s
  | S _, EmptyString => EmptyString
  | S k, String _ s' => drop k s'
  end.

(** [old in s]: [old] occurs as a substring of [s]. *)
Definition occurs (old s : string) : Prop :=
  exists pre post, s = pre ++ old ++ post.

Fixpoint contains (old s : string) : bool :=
  startswith old s ||
  match s with
  | EmptyString => false
  | String _ s' => contains old s'
  end.

(** [s.replace("", new)]: [new] is put before every character and at
    the end. *)
Fixpoint interleave (new s : string) : string :=
  new ++ match s with
         | EmptyString => EmptyString
         | String c s' => String c (interleave new s')
         end.

(** [s.replace(old, new)] for a non-empty [old]: a scan from the left.
    At an occurrence of [old] the scan emits [new] and skips the rest of
    the occurrence ([skip] counts the characters still to skip), so
    the occurrences replaced do not overlap. *)
Fixpoint replace_scan (old new : string) (skip : nat) (s : string) : string :=
  match s with
  | EmptyString => EmptyString
  | String c s' =>
      match skip with
      | S k => replace_scan old new k s'
      | O =>
          if startswith old s
          then new ++ replace_scan old new (Nat.pred (String.length old)) s'
          else String c (replace_scan old new O s')
      end
  end.

(** [s.replace(old, new)]. *)
Definition replace (s old new : string) : string :=
  match old with
  | EmptyString => interleave new s
  | String _ _ => replace_scan old new O s
  end.

(** [s.split(sep)] for a separator of one character: the pieces between
    the occurrences of [sep]; there is always at least one piece. *)
Fixpoint split (sep : ascii) (s : string) : list string :=
  match s with
  | EmptyString => [EmptyString]
  | String c s' =>
      if Ascii.eqb c sep then EmptyString :: split sep s'
      else match split sep s' with
           | [] => [String c EmptyString]
           | piece :: pieces => String c piece :: pieces
           end
  end.

(** [s.rstrip(c)] for one character [c]. *)
Fixpoint rstrip (c : ascii) (s : string) : string :=
  match s with
  | EmptyString => EmptyString
  | String a s' =>
      match rstrip c s' with
      | EmptyString => if Ascii.eqb a c then EmptyString else String a EmptyString
      | r => String a r
      end
  end.

(** [s == c * len(s)]: every character of [s] is [c]. *)
Fixpoint all_char (c : ascii) (s : string) : bool :=
  match s with
  | EmptyString => true
  | String a s' => Ascii.eqb a c && all_char c s'
  end.

(** [s.endswith(c)] for one character [c]. *)
Fixpoint endswith_char (c : ascii) (s : string) : bool :=
  match s with
  | EmptyString => false
  | String a EmptyString => Ascii.eqb a c
  | String _ s' => endswith_char c s'
  end.

(** [c in s] for one character [c]. *)
Fixpoint has_char (c : ascii) (s : string) : bool :=
  match s with
  | EmptyString => false
  | String a s' => Ascii.eqb a c || has_char c s'
  end.

(** [''.join(ss)]. *)
Fixpoint concat (ss : list string) : string :=
  match ss with
  | [] => EmptyString
  | s :: ss' => s ++ concat ss'
  end.

(** [str(n)], also [f"{n}"], for an [int]. *)
Definition of_int (n : Z) : string := NilZero.string_of_int (Z.to_int n).

(** [a or b] on strings: the empty string is false. *)
Definition or_else (a b : string) : string :=
  match a with
  | EmptyString => b
  | String _ _ => a
  end.

End PyStr.

(** ** [os.path] on POSIX *)

Module OsPath.

(** [(p[:i], p[i:])] with [i = p.rfind('/') + 1]: the part up to and
    including the last slash, and the part after it. *)
Fixpoint cut (p : string) : string * string :=
  match p with
  | EmptyString => (EmptyString, EmptyString)
  | String c p' =>
      match cut p' with
      | (EmptyString, tail) =>
          if Ascii.eqb c "/" then (String c EmptyString, tail)
          else (EmptyString, String c tail)
      | (head, tail) => (String c head, tail)
      end
  end.

(** [os.path.basename(p)]. *)
Definition basename (p : string) : string := snd (cut p).

(** [os.path.dirname(p)]: the head, without its trailing slashes unless
    it consists of slashes only. *)
Definition dirname (p : string) : string :=
  let head := fst (cut p) in
  match head with
  | EmptyString => head
  | String _ _ => if PyStr.all_char "/" head then head else PyStr.rstrip "/" head
  end.

(** [os.path.join(a, b)]. *)
Definition join (a b : string) : string :=
  if PyStr.startswith "/" b then b
  else match a with
       | EmptyString => b
       | String _ _ => if PyStr.endswith_char "/" a then a ++ b else a ++ "/" ++ b
       end.

End OsPath.

(** ** The outside world and the exceptions *)

Inductive exn : Type :=
  | FileNotFoundError (path : string)
  | FileExistsError (path : string)
  | NotADirectoryError (path : string)
  | IsADirectoryError (path : string)
  | KeyError (key : string)
  | RenderError.

Inductive result (A : Type) : Type :=
  | Ok (a : A)
  | Raise (e : exn).
Arguments Ok {A} a.
Arguments Raise {A} e.

(** The effects a run performs on the outside world, oldest first. *)
Inductive event : Type :=
  | EvRead (path : string)
  | EvMakedirs (path : string)
  | EvRender (bytestring : string) (output_width scale : Z)
             (background_color : option string)
  | EvWrite (path data : string).

(** Regular files with their contents, the directories that exist, and
    the effects performed so far.  Paths are compared as they are
    spelled.  The empty directory name of a relative file name stands for
    the working directory, which exists. *)
Record World : Type := mkWorld {
  files : gmap string string;
  dirs : gset string;
  trace : list event
}.

Definition log (e : event) (w : World) : World :=
  mkWorld (files w) (dirs w) (trace w ++ [e]).

Module Os.

(** The directory [d] and the directories above it, found by taking
    [dirname] until it is empty or does not move. *)
Fixpoint chain (fuel : nat) (d : string) : list string :=
  match fuel with
  | O => []
  | S k =>
      match d with
      | EmptyString => []
      | String _ _ =>
          let up := OsPath.dirname d in
          if String.eqb up d then [d] else d :: chain k up
      end
  end.

Definition ancestors (d : string) : list string := chain (S (String.length d)) d.

(** [open(path, "r", encoding="utf-8").read()]. *)
Definition read_text (path : string) (w : World) : World * result string :=
  match files w !! path with
  | Some text => (log (EvRead path) w, Ok text)
  | None => (w, Raise (FileNotFoundError path))
  end.

(** [os.makedirs(name, exist_ok=True)]: the empty name is refused, a
    regular file in the way is an error, and otherwise [name] and every
    directory above it exist afterwards. *)
Definition makedirs (name : string) (w : World) : World * result unit :=
  match name with
  | EmptyString => (w, Raise (FileNotFoundError name))
  | String _ _ =>
      match List.find (fun d => bool_decide (is_Some (files w !! d))) (ancestors name) with
      | Some d =>
          (w, Raise (if String.eqb d name then FileExistsError d
                     else NotADirectoryError d))
      | None =>
          (log (EvMakedirs name)
             (mkWorld (files w) (dirs w ∪ list_to_set (ancestors name)) (trace w)),
           Ok tt)
      end
  end.

(** [open(path, "w").write(data)], also in binary mode: the directory of
    [path] must exist and [path] must not be a directory; an existing
    file is replaced. *)
Definition write_file (path data : string) (w : World) : World * result unit :=
  if bool_decide (path ∈ dirs w) then (w, Raise (IsADirectoryError path))
  else
    let d := OsPath.dirname path in
    if bool_decide (d = EmptyString ∨ d ∈ dirs w)
    then (log (EvWrite path data)
            (mkWorld (<[path := data]> (files w)) (dirs w) (trace w)),
          Ok tt)
    else (w, Raise (FileNotFoundError path)).

End Os.


(** ** Computations *)

(** A [GenImages] object: the fields set by [__init__]. *)
Record GenImages : Type := mkGenImages {
  svg_src : string;
  _svg_cache : option string
}.

(** [GenImages(svg_src)]. *)
Definition GenImages_init (svg_src : string) : GenImages :=
  mkGenImages svg_src None.

(** The state a run works on: the one [GenImages] object of the script
    and the outside world. *)
Record Machine : Type := mkMachine {
  gen : GenImages;
  world : World
}.

Definition M (A : Type) : Type := Machine -> Machine * result A.

Definition ret {A} (a : A) : M A := fun m => (m, Ok a).

Definition raise {A} (e : exn) : M A := fun m => (m, Raise e).

Definition bind {A B} (c : M A) (k : A -> M B) : M B :=
  fun m =>
    match c m with
    | (m', Ok a) => k a m'
    | (m', Raise e) => (m', Raise e)
    end.

Notation "x <- c ;; k" := (bind c (fun x => k))
  (at level 100, c at next level, right associativity).
Notation "c ;;; k" := (bind c (fun _ => k))
  (at level 100, right associativity).

(** An operation of the outside world, run on the world of the machine. *)
Definition lift_os {A} (op : World -> World * result A) : M A :=
  fun m =>
    let (w', r) := op (world m) in
    (mkMachine (gen m) w', r).

Definition get_cache : M (option string) := fun m => (m, Ok (_svg_cache (gen m))).

Definition get_src : M string := fun m => (m, Ok (svg_src (gen m))).

Definition set_cache (text : string) : M unit :=
  fun m => (mkMachine (mkGenImages (svg_src (gen m)) (Some text)) (world m), Ok tt).

(** [l.append(x)]. *)
Definition list_append {A} (l : list A) (x : A) : list A := (l ++ [x])%list.

(** [for x in xs: acc = body(x, acc)], for a loop that updates a local
    variable. *)
Fixpoint for_fold {A S} (xs : list A) (body : A -> S -> M S) (acc : S) : M S :=
  match xs with
  | [] => ret acc
  | x :: xs' => acc' <- body x acc ;; for_fold xs' body acc'
  end.

(** ** The script *)

(** The line feed and the double quote, which a string literal cannot
    spell. *)
Definition nl : string := String "010"%char EmptyString.
Definition dq : string := String "034"%char EmptyString.

(** The lines of a text, each followed by a line feed. *)
Fixpoint unlines (ls : list string) : string :=
  match ls with
  | [] => EmptyString
  | l :: ls' => l ++ nl ++ unlines ls'
  end.

(** The default of the parameter [original_color] of [replace_colors]. *)
Definition default_original_color : string := "#0063be".

(** The default of the parameter [ext] of [save]. *)
Definition default_ext : string := "png".

(** [base_url] of [write_readme]. *)
Definition base_url : string :=
  "https://github.com/unexpo-poz/brand/blob/main/logo/icon/".

(** The initial value of [content] in [write_readme]. *)
Definition readme_header : string :=
  unlines
    [ "<h1 align=" ++ dq ++ "center" ++ dq ++ ">";
      "    <a href=" ++ dq ++ "http://www.poz.unexpo.edu.ve" ++ dq ++ "><img src=" ++ dq
        ++ "https://github.com/unexpo-poz/brand/blob/main/logo/standar/primary-2048.png"
        ++ dq ++ " width=" ++ dq ++ "175px" ++ dq ++ " alt=" ++ dq ++ "UNEXPO" ++ dq
        ++ "></a>";
      "</h1>";
      " ";
      "<h3 align=" ++ dq ++ "center" ++ dq
        ++ ">La Universidad Tecnica del Estado Venezolano.</h3>";
      "";
      "";
      "[Regresar al directorio raiz](https://github.com/unexpo-poz/brand)";
      "";
      "## Logos";
      "";
      "### Nota ";
      "Si algun logo no se visualiza correctamente, intenta cambiar el tema de Github de claro a oscuro o viceversa.";
      "";
      "| Vista | Tamaño | Uso |";
      "|-------|--------|-----|" ].

(** The size label of a row: [file_name.split('-')[-1].split('.')[0]].
    [split] never returns the empty list, so the defaults are not used. *)
Definition size_label (file_name : string) : string :=
  hd EmptyString (PyStr.split "." (List.last (PyStr.split "-" file_name) EmptyString)).

(** The body of the loop of [write_readme]: the text added to [content]
    for one image file. *)
Definition readme_row (image_file : string) : string :=
  let file_name := OsPath.basename image_file in
  let size := size_label file_name in
  let file_url := base_url ++ file_name ++ "?raw=true" in
  "|<img src='" ++ file_url ++ "' width='64' alt=''/> | " ++ size
    ++ "px | ✅ | [" ++ file_name
    ++ "](https://github.com/unexpo-poz/brand/blob/main/logo/icon/" ++ file_name
    ++ ") |" ++ nl.

(** [content] at the end of the loop of [write_readme]. *)
Definition readme_content (image_files : list string) : string :=
  fold_left (fun content image_file => content ++ readme_row image_file)
            image_files readme_header.

(** [write_readme(directory, image_files)]. *)
Definition write_readme (directory : string) (image_files : list string) : M unit :=
  let content := readme_content image_files in
  let readme_path := OsPath.join directory "README.md" in
  lift_os (Os.write_file readme_path content).

(** The constants of [generate_logos]. *)
Definition COLOR_MAPPING : gmap string string :=
  list_to_map
    [ ("#FFF", "white");
      ("#000", "black");
      ("#0063BE", "primary");
      ("#3E78B2", "secondary");
      ("#454647", "dark");
      ("#EBEBEB", "light") ].

Definition colors : list string :=
  ["#454647"; "#EBEBEB"; "#FFF"; "#000"; "#0063BE"; "#3E78B2"].

Definition sizes : list Z := [16; 32; 64; 100; 128; 512; 1024; 2048].

Section Script.

(** [cairosvg.svg2png(bytestring, output_width, scale, background_color)]:
    the rasteriser, which returns the bytes of the image or raises. *)
Variable svg2png : string -> Z -> Z -> option string -> result string.

(** A call of the rasteriser, recorded in the trace. *)
Definition render (bytestring : string) (output_width scale : Z)
    (background_color : option string) : M string :=
  fun m =>
    (mkMachine (gen m)
       (log (EvRender bytestring output_width scale background_color) (world m)),
     svg2png bytestring output_width scale background_color).

(** [GenImages.__get_svg(self)]. *)
Definition __get_svg : M string :=
  cache <- get_cache ;;
  match cache with
  | None =>
      src <- get_src ;;
      text <- lift_os (Os.read_text src) ;;
      set_cache text ;;;
      ret text
  | Some text => ret text
  end.

(** [GenImages.replace_colors(self, color_, original_color)]. *)
Definition replace_colors (color_ original_color : string) : M string :=
  svg <- __get_svg ;;
  ret (PyStr.replace svg original_color color_).

(** [GenImages.save(self, foreground_color, output, output_width, ext,
    background_color)]. *)
Definition save (foreground_color output : string) (output_width : Z)
    (ext : string) (background_color : option string) : M unit :=
  lift_os (Os.makedirs
             (PyStr.or_else (OsPath.dirname output) (OsPath.dirname output))) ;;;
  bytestring <- replace_colors foreground_color default_original_color ;;
  png_data <- render bytestring output_width 1 background_color ;;
  let output_path := output ++ "." ++ ext in
  lift_os (Os.write_file output_path png_data).

(** The body of the inner loop of [generate_logos], for one colour and
    one size; the result is the new value of [generated_files]. *)
Definition logo_step (color color_type : string) (size : Z)
    (generated_files : list string) : M (list string) :=
  generated_files <-
    (if (size <=? 128) && String.eqb color "#0063BE"
     then
       let output_path := "logo/favicon/favicon-" ++ PyStr.of_int size in
       save color output_path size "png" None ;;;
       ret (list_append generated_files (output_path ++ ".png"))
     else ret generated_files) ;;
  if size >=? 512
  then
    let output_path := "logo/standar/" ++ color_type ++ "-" ++ PyStr.of_int size in
    save color output_path size default_ext None ;;;
    ret (list_append generated_files (output_path ++ ".png"))
  else ret generated_files.

(** The body of the outer loop: the lookup [COLOR_MAPPING[color]], then
    the loop over the sizes. *)
Definition color_step (mapping : gmap string string) (size_list : list Z)
    (color : string) (generated_files : list string) : M (list string) :=
  color_type <-
    match mapping !! color with
    | Some name => ret name
    | None => raise (KeyError color)
    end ;;
  for_fold size_list (logo_step color color_type) generated_files.

(** The two loops of [generate_logos] over any mapping and any lists. *)
Definition generate_logos_loop (mapping : gmap string string)
    (color_list : list string) (size_list : list Z) : M (list string) :=
  for_fold color_list (color_step mapping size_list) [].

(** [generate_logos(gen)]. *)
Definition generate_logos : M (list string) :=
  generate_logos_loop COLOR_MAPPING colors sizes.

(** [main()], started in the world [w]; the message printed at the end
    is not modelled. *)
Definition main (w : World) : Machine * result unit :=
  let svg_path := "./logo/asset-svg/logo.svg" in
  (generated_files <- generate_logos ;;
   write_readme "./" generated_files)
    (mkMachine (GenImages_init svg_path) w).

End Script.

(** ** Definitions used to state the properties *)

(** The paths [logo_step] appends for one colour and one size: its two
    conditionals without the calls of [save]. *)
Definition emitted (color color_type : string) (size : Z) : list string :=
  app
    (if (size <=? 128) && String.eqb color "#0063BE"
     then ["logo/favicon/favicon-" ++ PyStr.of_int size ++ ".png"]
     else [])
    (if size >=? 512
     then ["logo/standar/" ++ color_type ++ "-" ++ PyStr.of_int size ++ ".png"]
     else []).

(** The paths appended for a colour of a mapping and a size. *)
Definition emitted_in (mapping : gmap string string) (color : string) (size : Z)
    : list string :=
  match mapping !! color with
  | Some color_type => emitted color color_type size
  | None => []
  end.

(** The paths of a whole run, each with the colour and the size it was
    appended for, in the order of the two loops. *)
Definition emitted_tagged (mapping : gmap string string)
    (color_list : list string) (size_list : list Z) : list (string * Z * string) :=
  flat_map
    (fun color =>
       flat_map
         (fun size => map (fun path => (color, size, path)) (emitted_in mapping color size))
         size_list)
    color_list.

(** The position of the first occurrence of [x] in [l], as [l.index(x)];
    the length of [l] when there is none. *)
Fixpoint index_of {A} `{EqDecision A} (x : A) (l : list A) : nat :=
  match l with
  | [] => O
  | y :: l' => if decide (x = y) then O else S (index_of x l')
  end.

(** Colour-major, size-minor order of two tagged paths. *)
Definition before (a b : string * Z * string) : Prop :=
  let '(ca, sa, _) := a in
  let '(cb, sb, _) := b in
  (index_of ca colors < index_of cb colors)%nat
  \/ (ca = cb /\ sa < sb /\ (index_of sa sizes < index_of sb sizes)%nat).

Definition beforeb (a b : string * Z * string) : bool :=
  let '(ca, sa, _) := a in
  let '(cb, sb, _) := b in
  (index_of ca colors <? index_of cb colors)%nat
  || (String.eqb ca cb && (sa <? sb) && (index_of sa sizes <? index_of sb sizes)%nat).

(** Every element is related to all the later ones. *)
Fixpoint chainb {A} (r : A -> A -> bool) (l : list A) : bool :=
  match l with
  | [] => true
  | x :: l' => forallb (r x) l' && chainb r l'
  end.

(** The document of the object [gen m] is [text]: it is cached, or it is
    not loaded yet and the source file holds it. *)
Definition document (m : Machine) (text : string) : Prop :=
  match _svg_cache (gen m) with
  | Some cached => cached = text
  | None => files (world m) !! svg_src (gen m) = Some text
  end.

(** The spellings of the default colour with another casing of its
    letters. *)
Definition other_casings : list string := ["#0063BE"; "#0063Be"; "#0063bE"].

(** The default colour with any two characters for its two letters. *)
Definition other_casing (x y : ascii) : string :=
  "#0063" ++ String x (String y "").

(** The number of times a file was read, and the files written, in a
    trace. *)
Definition is_read (e : event) : bool :=
  match e with EvRead _ => true | _ => false end.

Definition is_write (e : event) : bool :=
  match e with EvWrite _ _ => true | _ => false end.

Definition reads (w : World) : nat := length (List.filter is_read (trace w)).

Definition writes (w : World) : nat := length (List.filter is_write (trace w)).

(** A call of a method of the [GenImages] object. *)
Inductive call : Type :=
  | CallGetSvg
  | CallReplaceColors (color_ original_color : string)
  | CallSave (foreground_color output : string) (output_width : Z)
             (ext : string) (background_color : option string).

Section Calls.

Variable svg2png : string -> Z -> Z -> option string -> result string.

(** The machine after a call; an exception raised by the call is caught
    by the caller, who goes on using the object. *)
Definition run_call (c : call) (m : Machine) : Machine :=
  match c with
  | CallGetSvg => fst (__get_svg m)
  | CallReplaceColors color_ original_color =>
      fst (replace_colors color_ original_color m)
  | CallSave foreground_color output output_width ext background_color =>
      fst (save svg2png foreground_color output output_width ext background_color m)
  end.

Definition run_calls (cs : list call) (m : Machine) : Machine :=
  fold_left (fun m c => run_call c m) cs m.

End Calls.

(** What may happen to the cache and to the number of reads between two
    states of the object: a loaded document stays and nothing is read;
    an empty cache stays empty, or is filled by one read. *)
Definition cache_step (m m' : Machine) : Prop :=
  svg_src (gen m') = svg_src (gen m)
  /\ match _svg_cache (gen m) with
     | Some text =>
         _svg_cache (gen m') = Some text /\ reads (world m') = reads (world m)
     | None =>
         (_svg_cache (gen m') = None /\ reads (world m') = reads (world m))
         \/ (is_Some (_svg_cache (gen m')) /\ reads (world m') = S (reads (world m)))
     end.

(** The directories that a run of [generate_logos] makes. *)
Definition logo_dirs : list string := ["logo/standar"; "logo"; "logo/favicon"].

(** The turns of the two loops, as pairs of a colour and a size in the
    order of the run. *)
Definition pairs (color_list : list string) (size_list : list Z)
    : list (string * Z) :=
  flat_map (fun color => map (pair color) size_list) color_list.

(** The paths of a turn, each with its colour and its size. *)
Definition tagged_of (mapping : gmap string string) (turn : string * Z)
    : list (string * Z * string) :=
  map (fun path => (fst turn, snd turn, path))
      (emitted_in mapping (fst turn) (snd turn)).

Section Turns.

Variable svg2png : string -> Z -> Z -> option string -> result string.


End Turns.


(** The computation [c] takes every machine to a machine related to it
    by [R], whether it returns or raises. *)
Definition keeps {A} (R : Machine -> Machine -> Prop) (c : M A) : Prop :=
  forall m, R m (fst (c m)).


(** The effects that a call of [save] may have, for an object whose
    source file is [src]. *)
Definition save_effect (src output : string) (output_width : Z) (ext : string)
    (background_color : option string) (e : event) : Prop :=
  match e with
  | EvMakedirs d => d = OsPath.dirname output
  | EvRead path => path = src
  | EvRender _ width scale background =>
      width = output_width /\ scale = 1 /\ background = background_color
  | EvWrite path _ => path = output ++ "." ++ ext
  end.

(** The effects that a run of [generate_logos] may have, for an object
    whose source file is [src]. *)
Definition batch_effect (src : string) (e : event) : Prop :=
  match e with
  | EvMakedirs d => d = "logo/favicon" \/ d = "logo/standar"
  | EvRead path => path = src
  | EvRender _ width scale background =>
      In width sizes /\ scale = 1 /\ background = None
  | EvWrite path _ =>
      In path (map snd (emitted_tagged COLOR_MAPPING colors sizes))
  end.

(** From [m] to [m'] the object keeps the source file [src], and the
    trace grows by effects that satisfy [P]. *)
Definition extends (P : event -> Prop) (src : string) (m m' : Machine) : Prop :=
  svg_src (gen m) = src ->
  svg_src (gen m') = src
  /\ exists evs, trace (world m') = (trace (world m) ++ evs)%list /\ Forall P evs.

(** A rasteriser and a world to run the script on. *)
Definition demo_svg2png (bytestring : string) (output_width scale : Z)
    (background_color : option string) : result string :=
  Ok ("PNG " ++ PyStr.of_int output_width ++ " " ++ bytestring).

Definition demo_world : World :=
  mkWorld
    {[ "./logo/asset-svg/logo.svg" := "<path fill='#0063be'/><path fill='#0063BE'/>" ]}
    {[ "." ]}
    [].

Definition demo_machine : Machine :=
  mkMachine (GenImages_init "./logo/asset-svg/logo.svg") demo_world.

(** * Properties *)

(** ** The model on examples *)

Example replace_ex1 : PyStr.replace "aXbXXc" "X" "yz" = "ayzbyzyzc".
Proof. reflexivity. Qed.
Example replace_ex2 : PyStr.replace "aaa" "aa" "b" = "ba".
Proof. reflexivity. Qed.
Example replace_ex3 : PyStr.replace "abc" "" "-" = "-a-b-c-".
Proof. reflexivity. Qed.
Example split_ex1 : PyStr.split "-" "favicon-16.png" = ["favicon"; "16.png"].
Proof. reflexivity. Qed.
Example split_ex2 : PyStr.split "." "a..b." = ["a"; ""; "b"; ""].
Proof. reflexivity. Qed.
Example rstrip_ex : PyStr.rstrip "/" "a//b//" = "a//b".
Proof. reflexivity. Qed.
Example of_int_ex : PyStr.of_int 2048 = "2048" /\ PyStr.of_int 0 = "0".
Proof. split; reflexivity. Qed.
Example cut_ex : OsPath.cut "logo/favicon/favicon-16" = ("logo/favicon/", "favicon-16").
Proof. reflexivity. Qed.
Example dirname_ex1 : OsPath.dirname "logo/favicon/favicon-16" = "logo/favicon".
Proof. reflexivity. Qed.
Example dirname_ex2 : OsPath.dirname "favicon-16" = "".
Proof. reflexivity. Qed.
Example dirname_ex3 : OsPath.dirname "/etc" = "/" /\ OsPath.dirname "a//b" = "a".
Proof. split; reflexivity. Qed.
Example basename_ex : OsPath.basename "logo/standar/white-1024.png" = "white-1024.png".
Proof. reflexivity. Qed.
Example join_ex : OsPath.join "./" "README.md" = "./README.md"
                  /\ OsPath.join "docs" "README.md" = "docs/README.md"
                  /\ OsPath.join "" "README.md" = "README.md".
Proof. repeat split; reflexivity. Qed.
Example ancestors_ex : Os.ancestors "logo/favicon" = ["logo/favicon"; "logo"].
Proof. reflexivity. Qed.
Example ancestors_ex2 : Os.ancestors "/a/b" = ["/a/b"; "/a"; "/"].
Proof. reflexivity. Qed.

(** ** Strings *)

Section StringFacts.

Local Open Scope nat_scope.
Local Arguments String.append !_ _ / : simpl nomatch.

Lemma append_nil_r (s : string) : s ++ "" = s.
Proof. induction s as [|c s IH]; simpl; [reflexivity | now rewrite IH]. Qed.

Lemma append_assoc (a b c : string) : (a ++ b) ++ c = a ++ (b ++ c).
Proof. induction a as [|x a IH]; simpl; [reflexivity | now rewrite IH]. Qed.

Lemma length_append (a b : string) :
  String.length (a ++ b) = String.length a + String.length b.
Proof. induction a as [|x a IH]; simpl; [reflexivity | now rewrite IH]. Qed.

Lemma drop_append (a b : string) : PyStr.drop (String.length a) (a ++ b) = b.
Proof. induction a as [|x a IH]; simpl; [now destruct b | exact IH]. Qed.

Lemma startswith_append (p s : string) : PyStr.startswith p (p ++ s) = true.
Proof.
  induction p as [|x p IH]; simpl; [reflexivity|].
  now rewrite Ascii.eqb_refl, IH.
Qed.

Lemma startswith_inv (p s : string) :
  PyStr.startswith p s = true -> s = p ++ PyStr.drop (String.length p) s.
Proof.
  revert s; induction p as [|x p IH]; intros s H; simpl.
  - now destruct s.
  - destruct s as [|y s]; simpl in H; [discriminate|].
    apply andb_prop in H as [Hxy Hp].
    apply Ascii.eqb_eq in Hxy; subst y.
    simpl. f_equal. now apply IH.
Qed.

Lemma startswith_occurs (p s : string) :
  PyStr.startswith p s = true -> PyStr.occurs p s.
Proof.
  intros H. exists "", (PyStr.drop (String.length p) s). simpl.
  now apply startswith_inv.
Qed.

Lemma occurs_cons (old : string) (c : ascii) (s : string) :
  PyStr.occurs old s -> PyStr.occurs old (String c s).
Proof.
  intros (pre & post & ->). now exists (String c pre), post.
Qed.

Lemma contains_occurs (old s : string) :
  PyStr.contains old s = true <-> PyStr.occurs old s.
Proof.
  split.
  - induction s as [|c s IH]; simpl; intros H.
    + rewrite orb_false_r in H. now apply startswith_occurs.
    + apply orb_prop in H as [H|H].
      * now apply startswith_occurs.
      * apply occurs_cons; auto.
  - intros (pre & post & ->).
    induction pre as [|c pre IH].
    + change ("" ++ old ++ post) with (old ++ post).
      pose proof (startswith_append old post) as H.
      destruct (old ++ post); simpl; now rewrite H.
    + change (String c pre ++ old ++ post) with (String c (pre ++ old ++ post)).
      cbn [PyStr.contains]. rewrite IH. apply orb_true_r.
Qed.

(** The scan that has [k] characters left to skip goes on behind them. *)
Lemma replace_scan_skip (old new : string) (k : nat) (s : string) :
  PyStr.replace_scan old new k s = PyStr.replace_scan old new 0 (PyStr.drop k s).
Proof.
  revert k; induction s as [|c s IH]; intros [|k]; try reflexivity.
  simpl PyStr.drop. rewrite <- IH. reflexivity.
Qed.

(** At an occurrence, [new] is emitted and the scan goes on behind it. *)
Lemma replace_scan_hit (old new s : string) :
  old <> "" -> PyStr.startswith old s = true ->
  PyStr.replace_scan old new 0 s
  = new ++ PyStr.replace_scan old new 0 (PyStr.drop (String.length old) s).
Proof.
  intros Hne H. destruct old as [|a old]; [congruence|].
  destruct s as [|c s]; [discriminate|].
  cbn [PyStr.replace_scan]. rewrite H.
  now rewrite replace_scan_skip.
Qed.

(** Elsewhere the character is copied. *)
Lemma replace_scan_miss (old new : string) (c : ascii) (s : string) :
  PyStr.startswith old (String c s) = false ->
  PyStr.replace_scan old new 0 (String c s)
  = String c (PyStr.replace_scan old new 0 s).
Proof. intros H. cbn [PyStr.replace_scan]. now rewrite H. Qed.

(** Replacing a string that does not occur changes nothing. *)
Lemma replace_absent (s old new : string) :
  ~ PyStr.occurs old s -> PyStr.replace s old new = s.
Proof.
  intros Hno. destruct old as [|a old].
  - exfalso. apply Hno. now exists "", s.
  - unfold PyStr.replace.
    induction s as [|c s IH]; [reflexivity|].
    rewrite replace_scan_miss.
    + f_equal. apply IH. intros H. apply Hno. now apply occurs_cons.
    + destruct (PyStr.startswith (String a old) (String c s)) eqn:E; [|reflexivity].
      exfalso. apply Hno. now apply startswith_occurs.
Qed.

Lemma interleave_empty (s : string) : PyStr.interleave "" s = s.
Proof. induction s as [|c s IH]; simpl; [reflexivity | now f_equal]. Qed.

Lemma drop_length_le (k : nat) (s : string) :
  String.length (PyStr.drop k s) <= String.length s.
Proof.
  revert k; induction s as [|c s IH]; intros [|k]; simpl; try lia.
  specialize (IH k). lia.
Qed.

(** Replacing a string by itself changes nothing. *)
Lemma replace_same (s c : string) : PyStr.replace s c c = s.
Proof.
  destruct c as [|a c]; [apply interleave_empty|].
  unfold PyStr.replace.
  remember (String.length s) as n eqn:Hn.
  revert s Hn. induction n as [n IH] using lt_wf_ind. intros s Hn.
  destruct s as [|x s]; [reflexivity|].
  destruct (PyStr.startswith (String a c) (String x s)) eqn:E.
  - rewrite replace_scan_hit by (congruence || assumption).
    rewrite (IH (String.length (PyStr.drop (String.length (String a c)) (String x s)))).
    + symmetry. now apply startswith_inv.
    + subst n. simpl. pose proof (drop_length_le (String.length c) s). lia.
    + reflexivity.
  - rewrite replace_scan_miss by assumption.
    f_equal. apply (IH (String.length s)); [subst n; simpl; lia | reflexivity].
Qed.

Lemma startswith_weaken (p a b : string) :
  PyStr.startswith p a = true -> PyStr.startswith p (a ++ b) = true.
Proof.
  revert a; induction p as [|x p IH]; intros a H; [reflexivity|].
  destruct a as [|y a]; [discriminate|].
  simpl in *. apply andb_prop in H as [-> H]. now rewrite IH.
Qed.

Lemma other_casing_not_default (x y : ascii) :
  other_casing x y <> default_original_color ->
  (Ascii.eqb "b" x && Ascii.eqb "e" y) = false.
Proof.
  intros H.
  destruct (Ascii.eqb "b" x) eqn:Ex; [|reflexivity].
  destruct (Ascii.eqb "e" y) eqn:Ey; [|reflexivity].
  apply Ascii.eqb_eq in Ex, Ey. subst. now elim H.
Qed.

(** No occurrence of the default colour begins before a spelling with
    another casing and ends inside or behind it. *)
Lemma default_color_no_straddle (x y : ascii) (pre post : string) :
  other_casing x y <> default_original_color ->
  PyStr.startswith default_original_color (pre ++ other_casing x y ++ post) = true ->
  PyStr.startswith default_original_color pre = true.
Proof.
  intros Hxy H. apply other_casing_not_default in Hxy.
  unfold default_original_color, other_casing in *.
  destruct pre as [|c1 [|c2 [|c3 [|c4 [|c5 [|c6 [|c7 pre]]]]]]];
    cbn [PyStr.startswith String.append] in *;
    try exact H;
    exfalso; revert H Hxy;
    repeat match goal with
           | |- context [Ascii.eqb ?a ?b] =>
               is_var b; destruct (Ascii.eqb a b)
           end;
    vm_compute; intros; discriminate.
Qed.

(** The scan copies a spelling with another casing. *)
Lemma replace_scan_other_casing (new : string) (x y : ascii) (post : string) :
  other_casing x y <> default_original_color -> x <> "#"%char -> y <> "#"%char ->
  PyStr.replace_scan default_original_color new 0 (other_casing x y ++ post)
  = other_casing x y ++ PyStr.replace_scan default_original_color new 0 post.
Proof.
  intros Hxy Hx Hy. apply other_casing_not_default in Hxy.
  apply Ascii.eqb_neq in Hx, Hy. rewrite Ascii.eqb_sym in Hx, Hy.
  unfold default_original_color, other_casing. cbn [String.append].
  repeat (rewrite replace_scan_miss; [f_equal|]);
    try reflexivity; cbn [PyStr.startswith].
  - now rewrite Hy.
  - now rewrite Hx.
  - revert Hxy. destruct (Ascii.eqb "b" x), (Ascii.eqb "e" y);
      vm_compute; congruence.
Qed.

(** Replacing the default colour rewrites what is before and what is
    behind a spelling with another casing, and keeps the spelling. *)
Lemma replace_around_other_casing (new : string) (x y : ascii) (pre post : string) :
  other_casing x y <> default_original_color -> x <> "#"%char -> y <> "#"%char ->
  PyStr.replace (pre ++ other_casing x y ++ post) default_original_color new
  = PyStr.replace pre default_original_color new
    ++ other_casing x y
    ++ PyStr.replace post default_original_color new.
Proof.
  intros Hxy Hx Hy.
  assert (Hr : forall s, PyStr.replace s default_original_color new
                         = PyStr.replace_scan default_original_color new 0 s)
    by reflexivity.
  rewrite !Hr. clear Hr.
  remember (String.length pre) as n eqn:Hn.
  revert pre Hn. induction n as [n IH] using lt_wf_ind. intros pre Hn.
  destruct pre as [|c pre].
  - now apply replace_scan_other_casing.
  - destruct (PyStr.startswith default_original_color
                (String c pre ++ other_casing x y ++ post)) eqn:E.
    + pose proof (default_color_no_straddle _ _ _ _ Hxy E) as Hp.
      pose proof (startswith_inv _ _ Hp) as Hs.
      remember (PyStr.drop (String.length default_original_color) (String c pre))
        as rest eqn:Hrest.
      clear Hrest E Hp. rewrite Hs in *. clear Hs.
      rewrite (append_assoc default_original_color).
      rewrite (replace_scan_hit _ _ (default_original_color ++ rest))
        by (discriminate || apply startswith_append).
      rewrite (replace_scan_hit _ _ (default_original_color ++ _ ++ _))
        by (discriminate || apply startswith_append).
      rewrite !drop_append, append_assoc. f_equal.
      apply (IH (String.length rest)); [|reflexivity].
      subst n. rewrite length_append. simpl. lia.
    + rewrite (replace_scan_miss _ _ c pre).
      * change (String c pre ++ other_casing x y ++ post)
          with (String c (pre ++ other_casing x y ++ post)) in *.
        rewrite replace_scan_miss by assumption.
        simpl. f_equal.
        apply (IH (String.length pre)); [subst n; simpl; lia | reflexivity].
      * destruct (PyStr.startswith default_original_color (String c pre)) eqn:Ep;
          [|reflexivity].
        apply (startswith_weaken _ _ (other_casing x y ++ post)) in Ep. congruence.
Qed.

End StringFacts.

(** ** The document loader and the recolouring *)

(** Unfolds the plumbing of computations. *)
Ltac unfold_m :=
  unfold bind, ret, raise, lift_os, get_cache, get_src, set_cache in *.

Lemma machine_eta (m : Machine) : mkMachine (gen m) (world m) = m.
Proof. now destruct m. Qed.

Section Loader.

(** A loaded document is returned from the cache, and nothing changes. *)
Lemma get_svg_cached (m : Machine) (text : string) :
  _svg_cache (gen m) = Some text -> __get_svg m = (m, Ok text).
Proof. intros H. unfold __get_svg. unfold_m. now rewrite H. Qed.

(** The first load reads the source file and fills the cache. *)
Lemma get_svg_first (m : Machine) (text : string) :
  _svg_cache (gen m) = None ->
  files (world m) !! svg_src (gen m) = Some text ->
  __get_svg m
  = (mkMachine (mkGenImages (svg_src (gen m)) (Some text))
               (log (EvRead (svg_src (gen m))) (world m)),
     Ok text).
Proof.
  intros Hc Hf. unfold __get_svg, Os.read_text. unfold_m.
  now rewrite Hc, Hf.
Qed.

(** A load of a file that does not exist raises and changes nothing. *)
Lemma get_svg_missing (m : Machine) :
  _svg_cache (gen m) = None ->
  files (world m) !! svg_src (gen m) = None ->
  __get_svg m = (m, Raise (FileNotFoundError (svg_src (gen m)))).
Proof.
  intros Hc Hf. unfold __get_svg, Os.read_text. unfold_m.
  rewrite Hc, Hf. simpl. now rewrite machine_eta.
Qed.

(** The loader returns the document. *)
Lemma get_svg_document (m : Machine) (text : string) :
  document m text -> exists m', __get_svg m = (m', Ok text).
Proof.
  unfold document. destruct (_svg_cache (gen m)) as [cached|] eqn:Hc; intros H.
  - subst. eexists. now apply get_svg_cached.
  - eexists. now apply get_svg_first.
Qed.

Lemma get_svg_returns_document (m m' : Machine) (text : string) :
  __get_svg m = (m', Ok text) -> document m text.
Proof.
  unfold document, __get_svg, Os.read_text. unfold_m.
  destruct (_svg_cache (gen m)) as [cached|]; [congruence|].
  destruct (files (world m) !! svg_src (gen m)); simpl; congruence.
Qed.

(** What a call of the loader does to the object and to the number of
    reads. *)
Lemma get_svg_effect (m : Machine) :
  let m' := fst (__get_svg m) in
  svg_src (gen m') = svg_src (gen m)
  /\ files (world m') = files (world m)
  /\ match _svg_cache (gen m) with
     | Some text =>
         _svg_cache (gen m') = Some text /\ reads (world m') = reads (world m)
     | None =>
         (_svg_cache (gen m') = None /\ reads (world m') = reads (world m))
         \/ (_svg_cache (gen m') = files (world m) !! svg_src (gen m)
             /\ reads (world m') = S (reads (world m)))
     end.
Proof.
  destruct (_svg_cache (gen m)) as [text|] eqn:Hc.
  - rewrite (get_svg_cached m text Hc). simpl. now rewrite Hc.
  - destruct (files (world m) !! svg_src (gen m)) as [text|] eqn:Hf.
    + rewrite (get_svg_first m text Hc Hf). simpl.
      repeat split; try right; try split; try reflexivity.
      unfold reads. simpl. rewrite List.filter_app, length_app. simpl. lia.
    + rewrite (get_svg_missing m Hc Hf). simpl. rewrite Hc. auto.
Qed.

End Loader.

(** C4. Recolouring with a default colour that does not occur in the
    document returns the document unchanged, and raises nothing: whenever
    the loader returns the text [text] and [original_color] is not a
    substring of [text], [replace_colors] returns [text] itself. *)
Theorem replace_colors_absent_unchanged
    (m m' : Machine) (text color_ original_color : string) :
  __get_svg m = (m', Ok text) ->
  ~ PyStr.occurs original_color text ->
  replace_colors color_ original_color m = (m', Ok text).
Proof.
  intros Hload Habsent. unfold replace_colors. unfold_m.
  rewrite Hload. now rewrite replace_absent.
Qed.

Lemma replace_colors_absent_unchanged_witness :
  replace_colors "#FFF" "#123456" demo_machine
  = (fst (__get_svg demo_machine),
     Ok "<path fill='#0063be'/><path fill='#0063BE'/>").
Proof.
  apply (replace_colors_absent_unchanged demo_machine).
  - reflexivity.
  - intros H. apply contains_occurs in H. vm_compute in H. discriminate H.
Defined.

(** C5. Recolouring is the identity when the target colour is the
    default colour: whenever the loader returns [text],
    [replace_colors(c, c)] returns [text], for every string [c]. *)
Theorem replace_colors_same_color (m m' : Machine) (text c : string) :
  __get_svg m = (m', Ok text) ->
  replace_colors c c m = (m', Ok text).
Proof.
  intros Hload. unfold replace_colors. unfold_m.
  rewrite Hload. now rewrite replace_same.
Qed.

Lemma replace_colors_same_color_witness :
  replace_colors "#0063be" "#0063be" demo_machine
  = (fst (__get_svg demo_machine),
     Ok "<path fill='#0063be'/><path fill='#0063BE'/>").
Proof.
  apply (replace_colors_same_color demo_machine). reflexivity.
Defined.

(** ** Saving an image *)

Lemma or_else_same (a : string) : PyStr.or_else a a = a.
Proof. now destruct a. Qed.

Lemma reads_log (e : event) (w : World) :
  reads (log e w) = (reads w + if is_read e then 1 else 0)%nat.
Proof.
  unfold reads, log. simpl. rewrite List.filter_app, length_app. simpl.
  now destruct (is_read e).
Qed.

Lemma writes_log (e : event) (w : World) :
  writes (log e w) = (writes w + if is_write e then 1 else 0)%nat.
Proof.
  unfold writes, log. simpl. rewrite List.filter_app, length_app. simpl.
  now destruct (is_write e).
Qed.

(** [makedirs] reads and writes no file, and keeps the files. *)
Lemma makedirs_effect (name : string) (w : World) :
  let w' := fst (Os.makedirs name w) in
  files w' = files w /\ reads w' = reads w /\ writes w' = writes w
  /\ (snd (Os.makedirs name w) = Ok tt ->
      name <> "" /\ name ∈ dirs w'
      /\ trace w' = (trace w ++ [EvMakedirs name])%list).
Proof.
  unfold Os.makedirs. destruct name as [|c name]; [simpl; intuition discriminate|].
  destruct (List.find _ _) as [d|]; [simpl; intuition discriminate|].
  cbn [fst snd]. rewrite reads_log, writes_log. cbn [files is_read is_write].
  repeat split; try (unfold reads, writes; simpl; lia); try discriminate.
  cbn [log dirs]. apply elem_of_union_r, elem_of_list_to_set.
  unfold Os.ancestors. cbn [Os.chain String.length].
  destruct (String.eqb _ _); apply list_elem_of_here.
Qed.

(** [write_file] reads nothing and writes at most one file. *)
Lemma write_file_effect (path data : string) (w : World) :
  let w' := fst (Os.write_file path data w) in
  reads w' = reads w
  /\ (writes w' <= S (writes w))%nat
  /\ (snd (Os.write_file path data w) = Ok tt ->
      files w' !! path = Some data
      /\ trace w' = (trace w ++ [EvWrite path data])%list).
Proof.
  unfold Os.write_file.
  destruct (bool_decide (path ∈ dirs w)); [simpl; intuition (lia || discriminate)|].
  destruct (bool_decide _); [|simpl; intuition (lia || discriminate)].
  cbn [fst snd]. rewrite reads_log, writes_log. cbn [is_read is_write log files].
  repeat split; try (unfold reads, writes; simpl; lia).
  apply lookup_insert_eq.
Qed.

Section Save.

Variable svg2png : string -> Z -> Z -> option string -> result string.

(** [save], one step after the other. *)
Lemma save_unfold (foreground_color output : string) (output_width : Z)
    (ext : string) (background_color : option string) (m : Machine) :
  save svg2png foreground_color output output_width ext background_color m
  = match Os.makedirs (OsPath.dirname output) (world m) with
    | (w1, Raise e) => (mkMachine (gen m) w1, Raise e)
    | (w1, Ok _) =>
        match __get_svg (mkMachine (gen m) w1) with
        | (m2, Raise e) => (m2, Raise e)
        | (m2, Ok text) =>
            let bytestring :=
              PyStr.replace text default_original_color foreground_color in
            let w3 :=
              log (EvRender bytestring output_width 1 background_color) (world m2) in
            match svg2png bytestring output_width 1 background_color with
            | Raise e => (mkMachine (gen m2) w3, Raise e)
            | Ok png_data =>
                let (w4, r) := Os.write_file (output ++ "." ++ ext) png_data w3 in
                (mkMachine (gen m2) w4, r)
            end
        end
    end.
Proof.
  unfold save, replace_colors, render. unfold_m. rewrite or_else_same.
  destruct (Os.makedirs _ _) as [w1 [[]|e]]; [|reflexivity].
  destruct (__get_svg _) as [m2 [text|e]]; [|reflexivity].
  cbn [gen world]. destruct (svg2png _ _ _ _); reflexivity.
Qed.

End Save.

Section SaveFacts.

Variable svg2png : string -> Z -> Z -> option string -> result string.

(** A call of [save] that returns has created the directory of
    [output], rendered the recoloured document and written the image,
    in this order. *)
Lemma save_returns (foreground_color output : string) (output_width : Z)
    (ext : string) (background_color : option string) (m m' : Machine) :
  save svg2png foreground_color output output_width ext background_color m
  = (m', Ok tt) ->
  exists text png_data loads,
    document m text
    /\ OsPath.dirname output <> ""
    /\ OsPath.dirname output ∈ dirs (world m')
    /\ svg2png (PyStr.replace text default_original_color foreground_color)
               output_width 1 background_color = Ok png_data
    /\ files (world m') !! (output ++ "." ++ ext) = Some png_data
    /\ (loads = [] \/ loads = [EvRead (svg_src (gen m))])
    /\ trace (world m')
       = (trace (world m)
          ++ EvMakedirs (OsPath.dirname output) :: loads
          ++ [EvRender (PyStr.replace text default_original_color foreground_color)
                       output_width 1 background_color;
              EvWrite (output ++ "." ++ ext) png_data])%list.
Proof.
  rewrite save_unfold.
  pose proof (makedirs_effect (OsPath.dirname output) (world m)) as Hmk.
  destruct (Os.makedirs _ _) as [w1 [[]|e]] eqn:Emk; [|discriminate].
  cbn [fst snd] in Hmk. destruct Hmk as (Hf1 & _ & _ & Hmk).
  destruct (Hmk eq_refl) as (Hne & Hdir & Htr1). clear Hmk.
  set (m1 := mkMachine (gen m) w1).
  destruct (__get_svg m1) as [m2 [text|e]] eqn:Eget; [|discriminate].
  pose proof (get_svg_returns_document _ _ _ Eget) as Hdoc.
  cbv zeta.
  destruct (svg2png _ _ _ _) as [png_data|e] eqn:Ernd; [|discriminate].
  pose proof (write_file_effect (output ++ "." ++ ext) png_data
                (log (EvRender (PyStr.replace text default_original_color
                                  foreground_color)
                        output_width 1 background_color) (world m2))) as Hwr.
  destruct (Os.write_file _ _ _) as [w4 r] eqn:Ewr.
  intros H. injection H as <- ->.
  cbn [fst snd] in Hwr. destruct Hwr as (_ & _ & Hwr).
  destruct (Hwr eq_refl) as (Hfile & Htr4). clear Hwr.
  assert (Hd4 : dirs w4 = dirs (world m2)).
  { unfold Os.write_file in Ewr.
    destruct (bool_decide _); [discriminate|].
    destruct (bool_decide _); [|discriminate].
    injection Ewr as <-. reflexivity. }
  assert (Hm2 : dirs (world m2) = dirs w1
                /\ exists loads,
                     (loads = [] \/ loads = [EvRead (svg_src (gen m))])
                     /\ trace (world m2) = (trace w1 ++ loads)%list).
  { subst m1. destruct (_svg_cache (gen m)) as [cached|] eqn:Hc.
    - rewrite (get_svg_cached _ cached) in Eget by exact Hc.
      simplify_eq. cbn. split; [reflexivity|].
      exists []. rewrite app_nil_r. auto.
    - destruct (files w1 !! svg_src (gen m)) as [loaded|] eqn:Hf.
      + rewrite (get_svg_first _ loaded) in Eget by assumption.
        simplify_eq. cbn. split; [reflexivity|].
        eexists. split; [right|]; reflexivity.
      + rewrite get_svg_missing in Eget by assumption. discriminate. }
  destruct Hm2 as (Hd2 & loads & Hloads & Htr2).
  exists text, png_data, loads. cbn [world].
  repeat split; try assumption.
  - unfold document in *. subst m1. cbn [gen world] in Hdoc.
    destruct (_svg_cache (gen m)); [assumption|]. now rewrite <- Hf1.
  - rewrite Hd4, Hd2. exact Hdir.
  - rewrite Htr4. cbn [log trace]. rewrite Htr2, Htr1.
    rewrite <- !app_assoc. reflexivity.
Qed.

(** A name without a directory part is refused before anything is
    read, rendered or written. *)
Lemma save_without_directory_raises (foreground_color output : string)
    (output_width : Z) (ext : string) (background_color : option string)
    (m : Machine) :
  OsPath.dirname output = "" ->
  save svg2png foreground_color output output_width ext background_color m
  = (m, Raise (FileNotFoundError "")).
Proof.
  intros Hd. rewrite save_unfold, Hd. cbn. now rewrite machine_eta.
Qed.

End SaveFacts.

(** C7. [save] does not ensure the parent directory for every output
    path: for the output [favicon-16], whose directory part is empty, the
    call [os.makedirs("")] raises [FileNotFoundError] and [save] stops
    there, in every state and with every rasteriser; nothing is read,
    rendered or written. *)
Theorem save_bare_name_raises
    (svg2png : string -> Z -> Z -> option string -> result string)
    (foreground_color : string) (output_width : Z) (ext : string)
    (background_color : option string) (m : Machine) :
  save svg2png foreground_color "favicon-16" output_width ext background_color m
  = (m, Raise (FileNotFoundError "")).
Proof.
  rewrite save_unfold.
  change (OsPath.dirname "favicon-16") with "".
  cbn [Os.makedirs]. now rewrite machine_eta.
Qed.

Lemma document_unique (m : Machine) (t1 t2 : string) :
  document m t1 -> document m t2 -> t1 = t2.
Proof. unfold document. destruct (_svg_cache (gen m)); congruence. Qed.

(** C9. The substitution done by [save] is case-sensitive and targets
    the lowercase literal [#0063be]: [save] renders the document with
    [#0063be] replaced by the foreground colour, and for every occurrence
    in the document of a spelling with another casing ([#0063BE],
    [#0063Be] or [#0063bE]) the rendered text is the recoloured text
    before it, the spelling itself unchanged, and the recoloured text
    behind it, for every foreground colour. *)
Theorem save_replaces_lowercase_only
    (svg2png : string -> Z -> Z -> option string -> result string)
    (foreground_color output : string) (output_width : Z) (ext : string)
    (background_color : option string) (m m' : Machine)
    (text pre u post : string) :
  save svg2png foreground_color output output_width ext background_color m
  = (m', Ok tt) ->
  document m text ->
  In u other_casings ->
  text = pre ++ u ++ post ->
  let rendered :=
    PyStr.replace pre "#0063be" foreground_color
    ++ u ++ PyStr.replace post "#0063be" foreground_color in
  PyStr.replace text "#0063be" foreground_color = rendered
  /\ In (EvRender rendered output_width 1 background_color) (trace (world m'))
  /\ exists png_data,
       svg2png rendered output_width 1 background_color = Ok png_data
       /\ files (world m') !! (output ++ "." ++ ext) = Some png_data.
Proof.
  intros Hsave Hdoc Hu Htext rendered.
  assert (Hrep : PyStr.replace text "#0063be" foreground_color = rendered).
  { subst text rendered. change "#0063be" with default_original_color.
    destruct Hu as [<-|[<-|[<-|[]]]].
    - apply (replace_around_other_casing _ "B" "E"); discriminate.
    - apply (replace_around_other_casing _ "B" "e"); discriminate.
    - apply (replace_around_other_casing _ "b" "E"); discriminate. }
  split; [exact Hrep|].
  destruct (save_returns _ _ _ _ _ _ _ _ Hsave)
    as (text' & png_data & loads & Hdoc' & _ & _ & Hrnd & Hfile & _ & Htr).
  rewrite (document_unique _ _ _ Hdoc' Hdoc) in *.
  change default_original_color with "#0063be" in *. rewrite Hrep in *.
  split.
  - rewrite Htr. apply in_or_app. right. right.
    apply in_or_app. right. now left.
  - now exists png_data.
Qed.

Lemma save_replaces_lowercase_only_witness :
  let rendered := "<path fill='" ++ "#FFF" ++ "'/><path fill='" ++ "#0063BE" ++ "'/>" in
  PyStr.replace "<path fill='#0063be'/><path fill='#0063BE'/>" "#0063be" "#FFF"
  = rendered
  /\ In (EvRender rendered 16 1 None)
        (trace (world (fst (save demo_svg2png "#FFF" "logo/favicon/favicon-16"
                                 16 "png" None demo_machine))))
  /\ exists png_data,
       demo_svg2png rendered 16 1 None = Ok png_data
       /\ files (world (fst (save demo_svg2png "#FFF" "logo/favicon/favicon-16"
                                  16 "png" None demo_machine)))
          !! "logo/favicon/favicon-16.png" = Some png_data.
Proof.
  apply (save_replaces_lowercase_only demo_svg2png "#FFF" "logo/favicon/favicon-16"
           16 "png" None demo_machine _
           "<path fill='#0063be'/><path fill='#0063BE'/>"
           "<path fill='#0063be'/><path fill='" "#0063BE" "'/>").
  - vm_compute. reflexivity.
  - reflexivity.
  - simpl. auto.
  - reflexivity.
Defined.

(** ** The cache of the document *)

Section Cache.

Variable svg2png : string -> Z -> Z -> option string -> result string.

Lemma get_svg_cache_step (m : Machine) : cache_step m (fst (__get_svg m)).
Proof.
  destruct (get_svg_effect m) as (Hsrc & _ & H). split; [exact Hsrc|].
  destruct (_svg_cache (gen m)) as [text|]; [exact H|].
  destruct H as [H|[Hc Hr]]; [now left|right].
  split; [|exact Hr].
  destruct (_svg_cache (gen (fst (__get_svg m)))) eqn:E; [eauto|].
  unfold __get_svg, Os.read_text in *. unfold_m.
  destruct (_svg_cache (gen m)); [|destruct (files _ !! _)]; cbn in *;
    try discriminate; unfold reads in *; lia.
Qed.

Lemma cache_step_frame (m m1 m' : Machine) :
  cache_step m1 m' ->
  gen m1 = gen m -> reads (world m1) = reads (world m) ->
  cache_step m m'.
Proof. unfold cache_step. intros H <- <-. exact H. Qed.

Lemma save_cache_step (foreground_color output : string) (output_width : Z)
    (ext : string) (background_color : option string) (m : Machine) :
  cache_step m
    (fst (save svg2png foreground_color output output_width ext background_color m)).
Proof.
  rewrite save_unfold.
  pose proof (makedirs_effect (OsPath.dirname output) (world m)) as (_ & Hr1 & _).
  destruct (Os.makedirs _ _) as [w1 r1]. cbn [fst] in Hr1.
  set (m1 := mkMachine (gen m) w1).
  assert (Hm1 : cache_step m m1).
  { split; [reflexivity|]. subst m1. cbn [gen world].
    destruct (_svg_cache (gen m)); auto. }
  destruct r1 as [[]|e]; [|exact Hm1].
  pose proof (get_svg_cache_step m1) as Hget.
  destruct (__get_svg m1) as [m2 r2]. cbn [fst] in Hget.
  apply (cache_step_frame m m1) in Hget; [|reflexivity|exact Hr1].
  destruct r2 as [text|e]; [|exact Hget].
  cbv zeta.
  set (w3 := log _ (world m2)).
  assert (Hr3 : reads w3 = reads (world m2)).
  { subst w3. rewrite reads_log. simpl. lia. }
  assert (Hfinal : forall w4, reads w4 = reads w3 ->
                              cache_step m (mkMachine (gen m2) w4)).
  { intros w4 Hr4. unfold cache_step in *. cbn [gen world].
    rewrite Hr4, Hr3. exact Hget. }
  destruct (svg2png _ _ _ _) as [png_data|e]; cbn [fst]; [|now apply Hfinal].
  pose proof (write_file_effect (output ++ "." ++ ext) png_data w3) as (Hr4 & _).
  destruct (Os.write_file _ _ _) as [w4 r4]. cbn [fst] in *. now apply Hfinal.
Qed.

Lemma run_call_cache_step (c : call) (m : Machine) :
  cache_step m (run_call svg2png c m).
Proof.
  destruct c as [|color_ original_color|fg output width ext bg]; cbn [run_call].
  - apply get_svg_cache_step.
  - unfold replace_colors. unfold_m.
    pose proof (get_svg_cache_step m) as H.
    destruct (__get_svg m) as [m' [text|e]]; exact H.
  - apply save_cache_step.
Qed.

(** Once the document is loaded, no sequence of calls changes the cache
    or reads a file. *)
Lemma run_calls_loaded (cs : list call) (m : Machine) (text : string) :
  _svg_cache (gen m) = Some text ->
  _svg_cache (gen (run_calls svg2png cs m)) = Some text
  /\ reads (world (run_calls svg2png cs m)) = reads (world m).
Proof.
  revert m. induction cs as [|c cs IH]; intros m Hc; [now split|].
  cbn [run_calls fold_left].
  destruct (run_call_cache_step c m) as (_ & H). rewrite Hc in H.
  destruct H as (Hc' & Hr'). rewrite <- Hr'. now apply IH.
Qed.

(** No sequence of calls reads more than once. *)
Lemma run_calls_reads (cs : list call) (m : Machine) :
  (reads (world (run_calls svg2png cs m)) <= S (reads (world m)))%nat
  /\ (is_Some (_svg_cache (gen m)) ->
      reads (world (run_calls svg2png cs m)) = reads (world m)).
Proof.
  revert m. induction cs as [|c cs IH]; intros m.
  - cbn. split; [lia|reflexivity].
  - cbn [run_calls fold_left].
    destruct (run_call_cache_step c m) as (_ & H).
    destruct (IH (run_call svg2png c m)) as (IHle & IHeq).
    fold (run_calls svg2png cs (run_call svg2png c m)) in *.
    destruct (_svg_cache (gen m)) as [text|] eqn:Hc.
    + destruct H as (Hc' & Hr'). rewrite IHeq by (rewrite Hc'; eauto).
      split; [lia|auto].
    + split; [|intros [? ?]; discriminate].
      destruct H as [(Hc' & Hr')|(Hc' & Hr')]; [lia|].
      rewrite IHeq by exact Hc'. lia.
Qed.

End Cache.

(** C6. The source document is read at most once per [GenImages]
    object.  On a new object whose source file holds [text], the first
    call of the loader reads the file once, returns [text] and caches it.
    After any sequence of calls of the methods of the object, the cache
    still holds [text], no further read has happened, the loader returns
    [text] without changing anything, and every recolouring starts from
    [text].  Whatever the first call is, no sequence of calls on a new
    object reads more than once. *)
Theorem get_svg_reads_once
    (svg2png : string -> Z -> Z -> option string -> result string)
    (src : string) (w : World) (text : string) (cs : list call) :
  files w !! src = Some text ->
  let m0 := mkMachine (GenImages_init src) w in
  let m1 := fst (__get_svg m0) in
  let m2 := run_calls svg2png cs m1 in
  __get_svg m0 = (m1, Ok text)
  /\ _svg_cache (gen m1) = Some text
  /\ reads (world m1) = S (reads w)
  /\ _svg_cache (gen m2) = Some text
  /\ reads (world m2) = S (reads w)
  /\ __get_svg m2 = (m2, Ok text)
  /\ (forall color_ original_color,
        replace_colors color_ original_color m2
        = (m2, Ok (PyStr.replace text original_color color_)))
  /\ (reads (world (run_calls svg2png cs m0)) <= S (reads w))%nat.
Proof.
  intros Hfile m0 m1 m2.
  assert (Hfirst : __get_svg m0
                   = (mkMachine (mkGenImages src (Some text)) (log (EvRead src) w),
                      Ok text))
    by now apply (get_svg_first m0 text).
  assert (Hm1 : m1 = mkMachine (mkGenImages src (Some text)) (log (EvRead src) w))
    by (subst m1; now rewrite Hfirst).
  assert (Hc1 : _svg_cache (gen m1) = Some text) by now rewrite Hm1.
  assert (Hr1 : reads (world m1) = S (reads w)).
  { rewrite Hm1. cbn [world]. rewrite reads_log. simpl. lia. }
  destruct (run_calls_loaded svg2png cs m1 text Hc1) as (Hc2 & Hr2).
  fold m2 in Hc2, Hr2.
  assert (Hget2 : __get_svg m2 = (m2, Ok text)) by now apply get_svg_cached.
  repeat split.
  - now rewrite Hfirst, Hm1.
  - exact Hc1.
  - exact Hr1.
  - exact Hc2.
  - now rewrite Hr2.
  - exact Hget2.
  - intros color_ original_color. unfold replace_colors. unfold_m.
    now rewrite Hget2.
  - apply (run_calls_reads svg2png cs m0).
Qed.

Lemma get_svg_reads_once_witness :
  let cs := [CallSave "#FFF" "logo/standar/white-512" 512 "png" None;
             CallReplaceColors "#000" "#0063be"; CallGetSvg;
             CallSave "#000" "./logo/asset-svg/logo" 16 "svg" None] in
  let m1 := fst (__get_svg demo_machine) in
  let m2 := run_calls demo_svg2png cs m1 in
  __get_svg demo_machine = (m1, Ok "<path fill='#0063be'/><path fill='#0063BE'/>")
  /\ _svg_cache (gen m1) = Some "<path fill='#0063be'/><path fill='#0063BE'/>"
  /\ reads (world m1) = 1%nat
  /\ _svg_cache (gen m2) = Some "<path fill='#0063be'/><path fill='#0063BE'/>"
  /\ reads (world m2) = 1%nat
  /\ __get_svg m2 = (m2, Ok "<path fill='#0063be'/><path fill='#0063BE'/>")
  /\ (forall color_ original_color,
        replace_colors color_ original_color m2
        = (m2, Ok (PyStr.replace "<path fill='#0063be'/><path fill='#0063BE'/>"
                     original_color color_)))
  /\ (reads (world (run_calls demo_svg2png cs demo_machine)) <= 1)%nat.
Proof.
  intros cs.
  apply (get_svg_reads_once demo_svg2png "./logo/asset-svg/logo.svg" demo_world
           "<path fill='#0063be'/><path fill='#0063BE'/>" cs).
  reflexivity.
Defined.

(** ** The Markdown report *)

Section SplitFacts.

Local Arguments String.append !_ _ / : simpl nomatch.

Lemma split_nonempty (sep : ascii) (s : string) : PyStr.split sep s <> [].
Proof.
  destruct s as [|c s]; simpl; [discriminate|].
  destruct (Ascii.eqb c sep); [discriminate|].
  destruct (PyStr.split sep s); discriminate.
Qed.

(** A string without the separator is one piece. *)
Lemma split_without (sep : ascii) (s : string) :
  PyStr.has_char sep s = false -> PyStr.split sep s = [s].
Proof.
  induction s as [|c s IH]; simpl; [reflexivity|].
  intros H. apply orb_false_elim in H as [Hc Hs].
  now rewrite Hc, IH.
Qed.

(** The pieces of [a], then the pieces of [b], when the separator is
    between them. *)
Lemma split_append (sep : ascii) (a b : string) :
  PyStr.split sep (a ++ String sep b)
  = (PyStr.split sep a ++ PyStr.split sep b)%list.
Proof.
  induction a as [|c a IH]; simpl.
  - now rewrite Ascii.eqb_refl.
  - destruct (Ascii.eqb c sep); [now rewrite IH|].
    rewrite IH. pose proof (split_nonempty sep a).
    destruct (PyStr.split sep a); [congruence|reflexivity].
Qed.

Lemma has_char_append (c : ascii) (a b : string) :
  PyStr.has_char c (a ++ b) = PyStr.has_char c a || PyStr.has_char c b.
Proof.
  induction a as [|x a IH]; simpl; [reflexivity|].
  now rewrite IH, orb_assoc.
Qed.

(** The label is what stands behind the last [-] and before the first
    [.] behind it. *)
Lemma size_label_suffix (stem num ext : string) :
  PyStr.has_char "-" num = false ->
  PyStr.has_char "." num = false ->
  PyStr.has_char "-" ext = false ->
  size_label (stem ++ "-" ++ num ++ "." ++ ext) = num.
Proof.
  intros Hdash Hdot Hext. unfold size_label.
  change (stem ++ "-" ++ num ++ "." ++ ext)
    with (stem ++ String "-" (num ++ String "." ext)).
  rewrite split_append.
  rewrite (split_without "-" (num ++ String "." ext)).
  - rewrite last_last. rewrite split_append, (split_without "." num) by assumption.
    reflexivity.
  - rewrite has_char_append. simpl. now rewrite Hdash, Hext.
Qed.

(** Without an extension the label is all that stands behind the last
    [-]. *)
Lemma size_label_no_extension (stem num : string) :
  PyStr.has_char "-" num = false ->
  PyStr.has_char "." num = false ->
  size_label (stem ++ "-" ++ num) = num.
Proof.
  intros Hdash Hdot. unfold size_label.
  change (stem ++ "-" ++ num) with (stem ++ String "-" num).
  rewrite split_append, (split_without "-" num) by assumption.
  rewrite last_last. now rewrite split_without.
Qed.

End SplitFacts.

(** The loop of [write_readme] adds the rows to the header one after the
    other. *)
Lemma readme_content_rows (image_files : list string) :
  readme_content image_files
  = readme_header ++ PyStr.concat (map readme_row image_files).
Proof.
  unfold readme_content. generalize readme_header as content.
  induction image_files as [|f fs IH]; intros content; cbn [fold_left map PyStr.concat].
  - now rewrite append_nil_r.
  - rewrite IH. apply append_assoc.
Qed.

(** A call of [write_readme] that returns has written the header and the
    rows to [README.md] in the directory. *)
Lemma write_readme_rows_content
    (directory : string) (image_files : list string) (m m' : Machine) :
  write_readme directory image_files m = (m', Ok tt) ->
  files (world m') !! OsPath.join directory "README.md"
  = Some (readme_header ++ PyStr.concat (map readme_row image_files))
  /\ trace (world m')
     = (trace (world m)
        ++ [EvWrite (OsPath.join directory "README.md")
                    (readme_header ++ PyStr.concat (map readme_row image_files))])%list.
Proof.
  intros Hrun. unfold write_readme in Hrun. unfold_m.
  pose proof (write_file_effect (OsPath.join directory "README.md")
                (readme_content image_files) (world m)) as (_ & _ & Hw).
  destruct (Os.write_file _ _ _) as [w' r]. cbn [fst snd] in Hw.
  injection Hrun as <- ->. cbn [world].
  destruct (Hw eq_refl) as (Hfile & Htrace).
  now rewrite Hfile, Htrace, readme_content_rows.
Qed.

(** C3. The report written by [write_readme] is the header followed by
    exactly one row per path of the list, in the order of the list.  The
    row of a path has the image address made of the base address, the
    base name of the path and [?raw=true], the link made of the base
    address and the base name, and the size label that stands in the base
    name behind the last [-] and before the first [.] behind it. *)
Theorem write_readme_rows
    (directory : string) (image_files : list string) (m m' : Machine) :
  write_readme directory image_files m = (m', Ok tt) ->
  let rows := map readme_row image_files in
  files (world m') !! OsPath.join directory "README.md"
  = Some (readme_header ++ PyStr.concat rows)
  /\ length rows = length image_files
  /\ forall (k : nat) (image_file : string),
       image_files !! k = Some image_file ->
       let file_name := OsPath.basename image_file in
       rows !! k
       = Some ("|<img src='" ++ (base_url ++ file_name ++ "?raw=true")
               ++ "' width='64' alt=''/> | " ++ size_label file_name
               ++ "px | ✅ | [" ++ file_name ++ "](" ++ (base_url ++ file_name)
               ++ ") |" ++ nl)
       /\ (forall stem num ext,
             file_name = stem ++ "-" ++ num ++ "." ++ ext ->
             PyStr.has_char "-" num = false ->
             PyStr.has_char "." num = false ->
             PyStr.has_char "-" ext = false ->
             size_label file_name = num)
       /\ (forall stem num,
             file_name = stem ++ "-" ++ num ->
             PyStr.has_char "-" num = false ->
             PyStr.has_char "." num = false ->
             size_label file_name = num).
Proof.
  intros Hrun rows. split; [|split; [|intros k image_file H file_name; repeat split]].
  - now destruct (write_readme_rows_content directory image_files m m' Hrun).
  - apply length_map.
  - subst rows. rewrite list_lookup_fmap, H. cbn [fmap option_fmap option_map].
    reflexivity.
  - intros stem num ext ->. apply size_label_suffix.
  - intros stem num ->. apply size_label_no_extension.
Qed.

Lemma write_readme_rows_witness :
  let image_files := ["logo/favicon/favicon-16.png"; "logo/standar/white-1024.png"] in
  let m' := fst (write_readme "./" image_files demo_machine) in
  files (world m') !! "./README.md"
  = Some (readme_header ++ PyStr.concat (map readme_row image_files))
  /\ size_label (OsPath.basename "logo/favicon/favicon-16.png") = "16"
  /\ size_label (OsPath.basename "logo/standar/white-1024.png") = "1024".
Proof.
  intros image_files m'.
  destruct (write_readme_rows "./" image_files demo_machine m')
    as (Hfile & _ & Hrows).
  - vm_compute. reflexivity.
  - split; [exact Hfile|]. split.
    + destruct (Hrows 0%nat "logo/favicon/favicon-16.png" eq_refl) as (_ & Hlabel & _).
      apply (Hlabel "favicon" "16" "png"); reflexivity.
    + destruct (Hrows 1%nat "logo/standar/white-1024.png" eq_refl) as (_ & Hlabel & _).
      apply (Hlabel "white" "1024" "png"); reflexivity.
Defined.

(** ** The batch of logos *)

Section Loops.

Context {A S : Type}.

(** A loop over two lists one after the other. *)
Lemma for_fold_app (xs ys : list A) (body : A -> S -> M S) (acc : S) (m : Machine) :
  for_fold (xs ++ ys) body acc m
  = (acc' <- for_fold xs body acc ;; for_fold ys body acc') m.
Proof.
  revert acc m. induction xs as [|x xs IH]; intros acc m; cbn [for_fold app].
  - reflexivity.
  - unfold bind in *.
    destruct (body x acc m) as [m' [acc'|e]]; [|reflexivity].
    now rewrite IH.
Qed.

End Loops.

(** A loop whose body appends to a list appends what its bodies append,
    in the order of the loop. *)
Lemma for_fold_appends {A B} (xs : list A) (body : A -> list B -> M (list B))
    (f : A -> list B) :
  (forall x acc acc' m m',
      body x acc m = (m', Ok acc') -> acc' = (acc ++ f x)%list) ->
  forall acc m m' acc',
    for_fold xs body acc m = (m', Ok acc') ->
    acc' = (acc ++ flat_map f xs)%list.
Proof.
  intros Hbody. induction xs as [|x xs IH]; intros acc m m' acc' H;
    cbn [for_fold flat_map] in *.
  - unfold ret in H. injection H as _ <-. now rewrite app_nil_r.
  - unfold bind in H.
    destruct (body x acc m) as [m1 [acc1|e]] eqn:E; [|discriminate].
    apply Hbody in E. apply IH in H. subst. now rewrite <- app_assoc.
Qed.

Section Batch.

Variable svg2png : string -> Z -> Z -> option string -> result string.

(** One turn of the inner loop appends [emitted]. *)
Lemma logo_step_appends (color color_type : string) (size : Z)
    (acc acc' : list string) (m m' : Machine) :
  logo_step svg2png color color_type size acc m = (m', Ok acc') ->
  acc' = (acc ++ emitted color color_type size)%list.
Proof.
  unfold logo_step, emitted, list_append, default_ext, bind, ret.
  destruct ((size <=? 128) && String.eqb color "#0063BE").
  - destruct (save _ _ _ _ _ _ _) as [m1 [[]|e]]; [|discriminate].
    destruct (size >=? 512).
    + destruct (save _ _ _ _ _ _ _) as [m2 [[]|e]]; [|discriminate].
      intros H. injection H as _ <-.
      now rewrite <- !app_assoc, !append_assoc.
    + intros H. injection H as _ <-. now rewrite app_nil_r, !append_assoc.
  - destruct (size >=? 512).
    + destruct (save _ _ _ _ _ _ _) as [m2 [[]|e]]; [|discriminate].
      intros H. injection H as _ <-. now rewrite !append_assoc.
    + intros H. injection H as _ <-. now rewrite app_nil_r.
Qed.

(** One turn of the outer loop: the colour has a name, and the turns of
    the inner loop append their paths. *)
Lemma color_step_appends (mapping : gmap string string) (size_list : list Z)
    (color : string) (acc acc' : list string) (m m' : Machine) :
  color_step svg2png mapping size_list color acc m = (m', Ok acc') ->
  is_Some (mapping !! color)
  /\ acc' = (acc ++ flat_map (emitted_in mapping color) size_list)%list.
Proof.
  unfold color_step, emitted_in, bind.
  destruct (mapping !! color) as [color_type|]; [|discriminate].
  cbn [ret]. intros H. split; [eauto|].
  now apply (for_fold_appends _ _ _ (logo_step_appends color color_type)) in H.
Qed.

(** A colour without a name stops the run at the lookup, before any
    size is looked at. *)
Lemma color_step_key_error (mapping : gmap string string) (size_list : list Z)
    (color : string) (acc : list string) (m : Machine) :
  mapping !! color = None ->
  color_step svg2png mapping size_list color acc m = (m, Raise (KeyError color)).
Proof. unfold color_step, bind. now intros ->. Qed.

Lemma color_loop_appends (mapping : gmap string string) (size_list : list Z)
    (color_list : list string) (acc acc' : list string) (m m' : Machine) :
  for_fold color_list (color_step svg2png mapping size_list) acc m = (m', Ok acc') ->
  Forall (fun color => is_Some (mapping !! color)) color_list
  /\ acc' = (acc ++ flat_map
                      (fun color => flat_map (emitted_in mapping color) size_list)
                      color_list)%list.
Proof.
  revert acc m. induction color_list as [|color cs IH]; intros acc m H;
    cbn [for_fold flat_map] in *.
  - unfold ret in H. injection H as _ <-. now rewrite app_nil_r.
  - unfold bind in H.
    destruct (color_step _ _ _ _ _ _) as [m1 [acc1|e]] eqn:E; [|discriminate].
    apply color_step_appends in E as (Hname & ->).
    apply IH in H as (Hnames & ->).
    split; [now constructor|]. now rewrite <- app_assoc.
Qed.

(** The list returned by the two loops. *)
Lemma generate_logos_loop_returns (mapping : gmap string string)
    (color_list : list string) (size_list : list Z)
    (m m' : Machine) (generated_files : list string) :
  generate_logos_loop svg2png mapping color_list size_list m
  = (m', Ok generated_files) ->
  Forall (fun color => is_Some (mapping !! color)) color_list
  /\ generated_files
     = flat_map (fun color => flat_map (emitted_in mapping color) size_list)
                color_list.
Proof. unfold generate_logos_loop. apply color_loop_appends. Qed.

End Batch.

(** The paths of the tagged list are the paths of the two loops. *)
Lemma emitted_tagged_paths (mapping : gmap string string)
    (color_list : list string) (size_list : list Z) :
  map snd (emitted_tagged mapping color_list size_list)
  = flat_map (fun color => flat_map (emitted_in mapping color) size_list) color_list.
Proof.
  unfold emitted_tagged.
  induction color_list as [|color cs IH]; cbn [flat_map map]; [reflexivity|].
  rewrite map_app, IH. f_equal. clear IH.
  induction size_list as [|size ss IHs]; cbn [flat_map map]; [reflexivity|].
  rewrite map_app, IHs, map_map. cbn [snd]. now rewrite map_id.
Qed.

(** What [emitted] holds. *)
Section Emitted.

Local Arguments String.append !_ _ / : simpl nomatch.

Lemma emitted_favicon (color color_type : string) (size : Z) :
  In ("logo/favicon/favicon-" ++ PyStr.of_int size ++ ".png")
     (emitted color color_type size)
  <-> size <= 128 /\ color = "#0063BE".
Proof.
  unfold emitted. rewrite in_app_iff.
  destruct ((size <=? 128) && String.eqb color "#0063BE") eqn:E.
  - apply andb_prop in E as [Hs Hc].
    apply Z.leb_le in Hs. apply String.eqb_eq in Hc.
    split; [auto|]. intros _. left. now left.
  - split.
    + intros [[]|H]. destruct (size >=? 512); [|destruct H].
      destruct H as [H|[]]. simpl in H. discriminate H.
    + intros [Hs Hc]. apply Z.leb_le in Hs. apply String.eqb_eq in Hc.
      rewrite Hs, Hc in E. discriminate E.
Qed.

Lemma emitted_standard (color color_type : string) (size : Z) :
  In ("logo/standar/" ++ color_type ++ "-" ++ PyStr.of_int size ++ ".png")
     (emitted color color_type size)
  <-> size >= 512.
Proof.
  unfold emitted. rewrite in_app_iff.
  destruct (size >=? 512) eqn:E.
  - apply Z.geb_le in E. split; [lia|]. intros _. right. now left.
  - split.
    + intros [H|[]].
      destruct (_ && _); [|destruct H].
      destruct H as [H|[]]. simpl in H. discriminate H.
    + intros H. apply Z.ge_le, Z.geb_le in H. congruence.
Qed.

Lemma emitted_nothing (color color_type : string) (size : Z) :
  ~ (size <= 128 /\ color = "#0063BE") -> ~ size >= 512 ->
  emitted color color_type size = [].
Proof.
  intros Hfav Hstd. unfold emitted.
  destruct ((size <=? 128) && String.eqb color "#0063BE") eqn:E.
  - apply andb_prop in E as [Hs Hc].
    apply Z.leb_le in Hs. apply String.eqb_eq in Hc. tauto.
  - destruct (size >=? 512) eqn:E2; [|reflexivity].
    apply Z.geb_le in E2. lia.
Qed.

(** At most one of the two conditions holds, so at most one path is
    appended. *)
Lemma emitted_at_most_one (color color_type : string) (size : Z) :
  (length (emitted color color_type size) <= 1)%nat.
Proof.
  unfold emitted.
  destruct (size <=? 128) eqn:E1; destruct (size >=? 512) eqn:E2;
    destruct (String.eqb color "#0063BE"); simpl; lia.
Qed.

End Emitted.

(** C1. A run of [generate_logos] that returns has appended, for every
    colour [C] of [colors] and every size [S] of [sizes], in the turn of
    the loops for [(C, S)], the path [logo/favicon/favicon-<S>.png] if and
    only if [S <= 128] and [C] is the primary colour [#0063BE], and the
    path [logo/standar/<name(C)>-<S>.png] if and only if [S >= 512]; a
    pair that satisfies neither condition appends nothing, as [#3E78B2]
    at size 64.  The list returned is made of the paths appended, and of
    nothing else. *)
Theorem generate_logos_inclusion
    (svg2png : string -> Z -> Z -> option string -> result string)
    (m m' : Machine) (generated_files : list string) :
  generate_logos svg2png m = (m', Ok generated_files) ->
  generated_files
  = flat_map (fun C => flat_map (emitted_in COLOR_MAPPING C) sizes) colors
  /\ (forall C S, In C colors -> In S sizes ->
      exists name,
        COLOR_MAPPING !! C = Some name
        /\ (forall acc acc' m1 m2,
              logo_step svg2png C name S acc m1 = (m2, Ok acc') ->
              acc' = (acc ++ emitted_in COLOR_MAPPING C S)%list)
        /\ (forall path,
              In path (emitted_in COLOR_MAPPING C S) -> In path generated_files)
        /\ (In ("logo/favicon/favicon-" ++ PyStr.of_int S ++ ".png")
               (emitted_in COLOR_MAPPING C S)
            <-> S <= 128 /\ C = "#0063BE")
        /\ (In ("logo/standar/" ++ name ++ "-" ++ PyStr.of_int S ++ ".png")
               (emitted_in COLOR_MAPPING C S)
            <-> S >= 512)
        /\ (~ (S <= 128 /\ C = "#0063BE") -> ~ S >= 512 ->
            emitted_in COLOR_MAPPING C S = []))
  /\ emitted_in COLOR_MAPPING "#3E78B2" 64 = [].
Proof.
  intros Hrun. apply generate_logos_loop_returns in Hrun as (Hnames & Hfiles).
  split; [exact Hfiles|]. split; [|reflexivity].
  intros C S HC HS.
  rewrite Forall_forall in Hnames.
  destruct (Hnames C) as [name Hname]; [now apply list_elem_of_In|].
  exists name. unfold emitted_in. rewrite Hname.
  split; [reflexivity|]. split; [|split; [|split; [|split]]].
  - intros acc acc' m1 m2. apply logo_step_appends.
  - intros path Hpath. rewrite Hfiles.
    apply in_flat_map. exists C. split; [exact HC|].
    apply in_flat_map. exists S. split; [exact HS|].
    unfold emitted_in. now rewrite Hname.
  - apply emitted_favicon.
  - apply emitted_standard.
  - apply emitted_nothing.
Qed.

Lemma generate_logos_inclusion_witness :
  exists m' generated_files,
    generate_logos demo_svg2png demo_machine = (m', Ok generated_files)
    /\ In "logo/favicon/favicon-16.png" generated_files
    /\ In "logo/standar/white-1024.png" generated_files
    /\ emitted_in COLOR_MAPPING "#3E78B2" 64 = [].
Proof.
  assert (Hrun : generate_logos demo_svg2png demo_machine
                 = (fst (generate_logos demo_svg2png demo_machine),
                    Ok (flat_map (fun C => flat_map (emitted_in COLOR_MAPPING C) sizes)
                                 colors)))
    by (vm_compute; reflexivity).
  destruct (generate_logos_inclusion demo_svg2png demo_machine _ _ Hrun)
    as (_ & Hpairs & Hnone).
  eexists _, _. split; [exact Hrun|].
  split; [|split; [|exact Hnone]].
  - destruct (Hpairs "#0063BE" 16) as (name & _ & _ & Hin & Hfav & _);
      [simpl; tauto | simpl; tauto |].
    apply Hin. apply Hfav. split; [lia|reflexivity].
  - destruct (Hpairs "#FFF" 1024) as (name & Hname & _ & Hin & _ & Hstd & _);
      [simpl; tauto | simpl; tauto |].
    apply Hin. vm_compute in Hname. injection Hname as <-.
    apply Hstd. lia.
Defined.

(** C8. The name of a colour is looked up at the start of its turn of
    the outer loop, before any size is looked at.  For every mapping,
    every list of sizes and every colour [c] without a name: the turn of
    [c] raises [KeyError] and does nothing else, so a list of colours
    that holds [c] never lets the run return, and the run raises
    [KeyError] for [c] as soon as the colours before [c] are done.  The
    sizes play no part: it is so even when no size lets [c] emit
    anything. *)
Theorem color_lookup_before_sizes
    (svg2png : string -> Z -> Z -> option string -> result string)
    (mapping : gmap string string) (pre : list string) (c : string)
    (post : list string) (size_list : list Z) (m : Machine) :
  mapping !! c = None ->
  (forall acc m0,
      color_step svg2png mapping size_list c acc m0 = (m0, Raise (KeyError c)))
  /\ (forall m' generated_files,
        generate_logos_loop svg2png mapping (pre ++ c :: post) size_list m
        <> (m', Ok generated_files))
  /\ (forall m1 acc,
        for_fold pre (color_step svg2png mapping size_list) [] m = (m1, Ok acc) ->
        generate_logos_loop svg2png mapping (pre ++ c :: post) size_list m
        = (m1, Raise (KeyError c))).
Proof.
  intros Hnone. split; [|split].
  - intros acc m0. now apply color_step_key_error.
  - intros m' generated_files Hrun.
    apply generate_logos_loop_returns in Hrun as (Hnames & _).
    rewrite Forall_forall in Hnames.
    destruct (Hnames c) as [name Hname]; [|congruence].
    apply list_elem_of_In, in_or_app. right. now left.
  - intros m1 acc Hpre. unfold generate_logos_loop.
    rewrite for_fold_app. unfold bind at 1. rewrite Hpre.
    cbn [for_fold]. unfold bind. now rewrite color_step_key_error.
Qed.

Lemma color_lookup_before_sizes_witness :
  generate_logos_loop demo_svg2png COLOR_MAPPING ["#FFF"; "#ABCDEF"; "#000"]
    [16; 200] demo_machine
  = (demo_machine, Raise (KeyError "#ABCDEF")).
Proof.
  destruct (color_lookup_before_sizes demo_svg2png COLOR_MAPPING ["#FFF"] "#ABCDEF"
              ["#000"] [16; 200] demo_machine) as (_ & _ & Hraise).
  - vm_compute. reflexivity.
  - apply (Hraise demo_machine []). vm_compute. reflexivity.
Defined.

Section Writes.

Variable svg2png : string -> Z -> Z -> option string -> result string.

Lemma get_svg_writes (m : Machine) :
  writes (world (fst (__get_svg m))) = writes (world m).
Proof.
  unfold __get_svg, Os.read_text. unfold_m.
  destruct (_svg_cache (gen m)); [reflexivity|].
  destruct (files (world m) !! svg_src (gen m)); [|reflexivity].
  cbn [fst world]. rewrite writes_log. simpl. lia.
Qed.

(** A call of [save] writes at most one file. *)
Lemma save_writes (foreground_color output : string) (output_width : Z)
    (ext : string) (background_color : option string) (m : Machine) :
  (writes (world (fst (save svg2png foreground_color output output_width ext
                            background_color m)))
   <= S (writes (world m)))%nat.
Proof.
  rewrite save_unfold.
  pose proof (makedirs_effect (OsPath.dirname output) (world m)) as (_ & _ & Hw1 & _).
  destruct (Os.makedirs _ _) as [w1 [[]|e]]; cbn [fst] in Hw1;
    [|cbn [fst world]; lia].
  pose proof (get_svg_writes (mkMachine (gen m) w1)) as Hw2.
  destruct (__get_svg _) as [m2 [text|e]]; cbn [fst world] in Hw2;
    [|cbn [fst]; lia].
  cbv zeta.
  set (w3 := log _ (world m2)).
  assert (Hw3 : writes w3 = writes (world m2)).
  { subst w3. rewrite writes_log. simpl. lia. }
  destruct (svg2png _ _ _ _) as [png_data|e]; [|cbn [fst world]; lia].
  pose proof (write_file_effect (output ++ "." ++ ext) png_data w3) as (_ & Hw4 & _).
  destruct (Os.write_file _ _ _) as [w4 r4]. cbn [fst world] in *. lia.
Qed.

(** One turn of the inner loop writes at most one file. *)
Lemma logo_step_writes (color color_type : string) (size : Z)
    (acc : list string) (m : Machine) :
  (writes (world (fst (logo_step svg2png color color_type size acc m)))
   <= S (writes (world m)))%nat.
Proof.
  unfold logo_step, bind, ret.
  destruct (size <=? 128) eqn:E1; destruct (size >=? 512) eqn:E2;
    try lia; cbn [andb].
  - destruct (String.eqb color "#0063BE"); [|cbn; lia].
    pose proof (save_writes color ("logo/favicon/favicon-" ++ PyStr.of_int size)
                  size "png" None m) as H.
    destruct (save _ _ _ _ _ _ _) as [m1 [[]|e]]; exact H.
  - pose proof (save_writes
                  color ("logo/standar/" ++ color_type ++ "-" ++ PyStr.of_int size)
                  size default_ext None m) as H.
    destruct (save _ _ _ _ _ _ _) as [m1 [[]|e]]; exact H.
  - cbn. lia.
Qed.

End Writes.

(** C10. Every pair of a colour and a size produces at most one file.  No
    size satisfies both [size <= 128] and [size >= 512], so one turn of
    the inner loop appends at most one path and writes at most one file,
    and the paths of the list returned by [generate_logos] are pairwise
    distinct. *)
Theorem one_path_per_pair
    (svg2png : string -> Z -> Z -> option string -> result string) :
  (forall size : Z, (size <=? 128) && (size >=? 512) = false)
  /\ (forall color color_type size acc acc' m m',
        logo_step svg2png color color_type size acc m = (m', Ok acc') ->
        exists new, acc' = (acc ++ new)%list /\ (length new <= 1)%nat)
  /\ (forall color color_type size acc m,
        (writes (world (fst (logo_step svg2png color color_type size acc m)))
         <= S (writes (world m)))%nat)
  /\ (forall m m' generated_files,
        generate_logos svg2png m = (m', Ok generated_files) ->
        NoDup generated_files).
Proof.
  split; [|split; [|split]].
  - intros size. lia.
  - intros color color_type size acc acc' m m' H.
    exists (emitted color color_type size).
    split; [now apply logo_step_appends in H | apply emitted_at_most_one].
  - apply logo_step_writes.
  - intros m m' generated_files H.
    apply generate_logos_loop_returns in H as (_ & ->).
    apply (bool_decide_unpack _). vm_compute. exact I.
Qed.

Lemma one_path_per_pair_witness :
  NoDup (flat_map (fun C => flat_map (emitted_in COLOR_MAPPING C) sizes) colors)
  /\ (writes (world (fst (logo_step demo_svg2png "#0063BE" "primary" 16 []
                            demo_machine))) <= 1)%nat.
Proof.
  destruct (one_path_per_pair demo_svg2png) as (_ & _ & Hwrites & Hdistinct).
  split.
  - apply (Hdistinct demo_machine (fst (generate_logos demo_svg2png demo_machine))).
    vm_compute. reflexivity.
  - apply (Hwrites "#0063BE" "primary" 16 [] demo_machine).
Defined.

(** ** The order of the paths *)

Lemma chainb_lookup {A} (r : A -> A -> bool) (l : list A) :
  chainb r l = true ->
  forall (i j : nat) (a b : A),
    (i < j)%nat -> l !! i = Some a -> l !! j = Some b -> r a b = true.
Proof.
  induction l as [|x l IH]; intros Hchain i j a b Hij Hi Hj.
  - discriminate Hi.
  - cbn [chainb] in Hchain. apply andb_prop in Hchain as [Hx Hl].
    destruct j as [|j]; [lia|]. cbn in Hj.
    destruct i as [|i].
    + cbn in Hi. injection Hi as ->.
      rewrite forallb_forall in Hx. apply Hx.
      apply list_elem_of_In, list_elem_of_lookup. eauto.
    + cbn in Hi. apply (IH Hl i j); [lia|assumption..].
Qed.

Lemma beforeb_before (a b : string * Z * string) :
  beforeb a b = true -> before a b.
Proof.
  destruct a as [[ca sa] pa], b as [[cb sb] pb]. unfold beforeb, before.
  intros H. apply orb_prop in H as [H|H].
  - left. now apply Nat.ltb_lt.
  - right. apply andb_prop in H as [H Hi]. apply andb_prop in H as [Hc Hs].
    apply String.eqb_eq in Hc. apply Z.ltb_lt in Hs. apply Nat.ltb_lt in Hi.
    auto.
Qed.

(** C2. The list returned by [generate_logos] is in colour-major,
    size-minor order: it is the list of the paths appended in the turns
    of the two loops, and of two of its paths the one at the smaller
    position was appended for a colour that stands earlier in [colors]
    or, for the same colour, for a smaller size that stands earlier in
    [sizes].  The report written from the list has its rows in the order
    of the list: the row at position [k] is the row of the path at
    position [k]. *)
Theorem generate_logos_order
    (svg2png : string -> Z -> Z -> option string -> result string)
    (m m1 m2 : Machine) (generated_files : list string) (directory : string) :
  generate_logos svg2png m = (m1, Ok generated_files) ->
  write_readme directory generated_files m1 = (m2, Ok tt) ->
  let tagged := emitted_tagged COLOR_MAPPING colors sizes in
  generated_files = map snd tagged
  /\ (forall (i j : nat) (a b : string * Z * string),
        (i < j)%nat -> tagged !! i = Some a -> tagged !! j = Some b ->
        before a b)
  /\ files (world m2) !! OsPath.join directory "README.md"
     = Some (readme_header ++ PyStr.concat (map readme_row generated_files))
  /\ (forall (k : nat) (path : string),
        generated_files !! k = Some path ->
        map readme_row generated_files !! k = Some (readme_row path)).
Proof.
  intros Hrun Hwrite tagged.
  apply generate_logos_loop_returns in Hrun as (_ & Hfiles).
  split; [|split; [|split]].
  - subst tagged. now rewrite emitted_tagged_paths.
  - intros i j a b Hij Hi Hj. apply beforeb_before.
    apply (chainb_lookup beforeb tagged) with (i := i) (j := j);
      [vm_compute; reflexivity | assumption..].
  - now destruct (write_readme_rows_content directory generated_files m1 m2 Hwrite).
  - intros k path Hk. now rewrite list_lookup_fmap, Hk.
Qed.

Lemma generate_logos_order_witness :
  let m1 := fst (generate_logos demo_svg2png demo_machine) in
  let generated_files :=
    flat_map (fun C => flat_map (emitted_in COLOR_MAPPING C) sizes) colors in
  let m2 := fst (write_readme "./" generated_files m1) in
  before ("#454647", 512, "logo/standar/dark-512.png")
         ("#0063BE", 16, "logo/favicon/favicon-16.png")
  /\ before ("#0063BE", 128, "logo/favicon/favicon-128.png")
            ("#0063BE", 512, "logo/standar/primary-512.png")
  /\ files (world m2) !! "./README.md"
     = Some (readme_header ++ PyStr.concat (map readme_row generated_files)).
Proof.
  intros m1 generated_files m2.
  destruct (generate_logos_order demo_svg2png demo_machine m1 m2 generated_files "./")
    as (_ & Horder & Hreadme & _).
  - vm_compute. reflexivity.
  - vm_compute. reflexivity.
  - split; [|split; [|exact Hreadme]].
    + apply (Horder 0%nat 12%nat); [lia | reflexivity | reflexivity].
    + apply (Horder 16%nat 17%nat); [lia | reflexivity | reflexivity].
Defined.

(** A run of [main] that returns has written the report of the paths of
    the two loops, in their order. *)
Lemma main_returns
    (svg2png : string -> Z -> Z -> option string -> result string)
    (w : World) (m' : Machine) :
  main svg2png w = (m', Ok tt) ->
  files (world m') !! "./README.md"
  = Some (readme_header
          ++ PyStr.concat
               (map readme_row (map snd (emitted_tagged COLOR_MAPPING colors sizes)))).
Proof.
  unfold main, bind.
  destruct (generate_logos svg2png _) as [m1 [generated_files|e]] eqn:Hrun;
    [|discriminate].
  intros Hwrite.
  apply generate_logos_loop_returns in Hrun as (_ & ->).
  apply write_readme_rows_content in Hwrite as (Hfile & _).
  now rewrite emitted_tagged_paths.
Qed.

Example main_demo :
  snd (main demo_svg2png demo_world) = Ok tt
  /\ length (trace (world (fst (main demo_svg2png demo_world)))) = 71%nat.
Proof. split; vm_compute; reflexivity. Qed.

(** * Further properties of the script *)

(** ** Recolouring leaves no occurrence of the replaced colour *)

Section NoneLeft.

Local Arguments String.append !_ _ / : simpl nomatch.

(** The replaced string [String h t] and the new string [String h r]
    begin with the same character, which occurs nowhere else in them,
    and neither is the beginning of the other: as [#0063be] and a colour
    of the palette. *)
Variables (h : ascii) (t r : string).
Hypothesis Ht : PyStr.has_char h t = false.
Hypothesis Hr : PyStr.has_char h r = false.
Hypothesis Hold_new : PyStr.startswith (String h t) (String h r) = false.
Hypothesis Hnew_old : PyStr.startswith (String h r) (String h t) = false.

Lemma startswith_append_cases (p a b : string) :
  PyStr.startswith p (a ++ b) = true ->
  PyStr.startswith p a = true \/ PyStr.startswith a p = true.
Proof.
  revert a. induction p as [|x p IH]; intros a H; [now left|].
  destruct a as [|y a]; [now right|].
  simpl in *. apply andb_prop in H as [Hxy H].
  rewrite (Ascii.eqb_sym y x), Hxy. simpl. now apply IH.
Qed.

(** A string without [h] adds no occurrence in front of a text. *)
Lemma contains_behind (u v : string) :
  PyStr.has_char h u = false ->
  PyStr.contains (String h t) (u ++ v) = PyStr.contains (String h t) v.
Proof.
  induction u as [|c u IH]; intros Hu; [reflexivity|].
  simpl in Hu. apply orb_false_elim in Hu as [Hc Hu].
  change (String c u ++ v) with (String c (u ++ v)).
  cbn [PyStr.contains PyStr.startswith].
  rewrite (Ascii.eqb_sym h c), Hc. simpl. now apply IH.
Qed.

(** The new string adds no occurrence in front of a text. *)
Lemma contains_behind_new (v : string) :
  PyStr.contains (String h t) v = false ->
  PyStr.contains (String h t) (String h r ++ v) = false.
Proof.
  intros Hv.
  change (String h r ++ v) with (String h (r ++ v)).
  cbn [PyStr.contains]. rewrite (contains_behind r v Hr), Hv, orb_false_r.
  destruct (PyStr.startswith (String h t) (String h (r ++ v))) eqn:E; [|reflexivity].
  change (String h (r ++ v)) with (String h r ++ v) in E.
  apply startswith_append_cases in E as [E|E]; congruence.
Qed.

(** A beginning without [h] of the scanned text was copied from the
    text. *)
Lemma scan_copied_prefix (q s : string) :
  PyStr.has_char h q = false ->
  PyStr.startswith q (PyStr.replace_scan (String h t) (String h r) 0 s) = true ->
  PyStr.startswith q s = true.
Proof.
  revert s. induction q as [|a q IH]; intros s Hq H; [reflexivity|].
  simpl in Hq. apply orb_false_elim in Hq as [Ha Hq].
  destruct s as [|d s]; [discriminate H|].
  destruct (PyStr.startswith (String h t) (String d s)) eqn:E.
  - rewrite replace_scan_hit in H by (discriminate || assumption).
    change (String h r ++ ?x) with (String h (r ++ x)) in H.
    cbn [PyStr.startswith] in H. rewrite Ha in H. discriminate H.
  - rewrite replace_scan_miss in H by assumption.
    cbn [PyStr.startswith] in *. apply andb_prop in H as [-> H].
    now apply IH.
Qed.

(** The scan leaves no occurrence of the replaced string. *)
Lemma replace_scan_none_left (s : string) :
  PyStr.contains (String h t) (PyStr.replace_scan (String h t) (String h r) 0 s)
  = false.
Proof.
  remember (String.length s) as n eqn:Hn.
  revert s Hn. induction n as [n IH] using lt_wf_ind. intros s Hn.
  destruct s as [|c s]; [reflexivity|].
  destruct (PyStr.startswith (String h t) (String c s)) eqn:E.
  - rewrite replace_scan_hit by (discriminate || assumption).
    apply contains_behind_new.
    apply (IH (String.length (PyStr.drop (String.length (String h t)) (String c s))));
      [|reflexivity].
    subst n. simpl. pose proof (drop_length_le (String.length t) s). lia.
  - rewrite replace_scan_miss by assumption.
    cbn [PyStr.contains].
    rewrite (IH (String.length s)) by (subst n; simpl; lia || reflexivity).
    rewrite orb_false_r.
    destruct (PyStr.startswith (String h t) (String c (PyStr.replace_scan _ _ 0 s)))
      eqn:E2; [|reflexivity].
    cbn [PyStr.startswith] in E, E2. apply andb_prop in E2 as [Hc E2].
    apply scan_copied_prefix in E2; [|exact Ht].
    rewrite Hc, E2 in E. discriminate E.
Qed.

End NoneLeft.

(** X1. Recolouring removes every occurrence of the replaced colour when
    the replaced colour and the new colour begin with the same character,
    which occurs nowhere else in them, and neither is the beginning of
    the other: [replace_colors] then returns a text in which the replaced
    colour does not occur. *)
Theorem replace_colors_none_left
    (m m' : Machine) (text : string) (h : ascii) (t r : string) :
  __get_svg m = (m', Ok text) ->
  PyStr.has_char h t = false ->
  PyStr.has_char h r = false ->
  PyStr.startswith (String h t) (String h r) = false ->
  PyStr.startswith (String h r) (String h t) = false ->
  exists out,
    replace_colors (String h r) (String h t) m = (m', Ok out)
    /\ ~ PyStr.occurs (String h t) out.
Proof.
  intros Hload Ht Hr Hold_new Hnew_old.
  exists (PyStr.replace text (String h t) (String h r)). split.
  - unfold replace_colors. unfold_m. now rewrite Hload.
  - intros Hocc. apply contains_occurs in Hocc.
    unfold PyStr.replace in Hocc.
    now rewrite replace_scan_none_left in Hocc.
Qed.

Lemma replace_colors_none_left_witness :
  exists out,
    replace_colors "#000" "#0063be" demo_machine
    = (fst (__get_svg demo_machine), Ok out)
    /\ ~ PyStr.occurs "#0063be" out.
Proof.
  apply (replace_colors_none_left demo_machine _
           "<path fill='#0063be'/><path fill='#0063BE'/>" "#" "0063be" "000");
    reflexivity.
Defined.

(** X2. For every colour of the palette, a call of [save] that returns
    has written the image of a text in which the default colour
    [#0063be] does not occur any more. *)
Theorem save_renders_without_default
    (svg2png : string -> Z -> Z -> option string -> result string)
    (foreground_color output : string) (output_width : Z) (ext : string)
    (background_color : option string) (m m' : Machine) :
  save svg2png foreground_color output output_width ext background_color m
  = (m', Ok tt) ->
  In foreground_color colors ->
  exists rendered png_data,
    ~ PyStr.occurs "#0063be" rendered
    /\ svg2png rendered output_width 1 background_color = Ok png_data
    /\ files (world m') !! (output ++ "." ++ ext) = Some png_data.
Proof.
  intros Hsave Hcolor.
  destruct (save_returns _ _ _ _ _ _ _ _ Hsave)
    as (text & png_data & _ & _ & _ & _ & Hrnd & Hfile & _).
  exists (PyStr.replace text default_original_color foreground_color), png_data.
  split; [|now split].
  intros Hocc. apply contains_occurs in Hocc.
  unfold PyStr.replace, default_original_color in Hocc.
  destruct Hcolor as [<-|[<-|[<-|[<-|[<-|[<-|[]]]]]]];
    rewrite replace_scan_none_left in Hocc by reflexivity; discriminate Hocc.
Qed.

Lemma save_renders_without_default_witness :
  exists rendered png_data,
    ~ PyStr.occurs "#0063be" rendered
    /\ demo_svg2png rendered 512 1 None = Ok png_data
    /\ files (world (fst (save demo_svg2png "#3E78B2" "logo/standar/secondary-512"
                               512 "png" None demo_machine)))
       !! "logo/standar/secondary-512.png" = Some png_data.
Proof.
  apply (save_renders_without_default demo_svg2png "#3E78B2"
           "logo/standar/secondary-512" 512 "png" None demo_machine).
  - vm_compute. reflexivity.
  - simpl. tauto.
Defined.

(** ** Paths *)

Section PathFacts.

Local Arguments String.append !_ _ / : simpl nomatch.
Local Open Scope nat_scope.

Lemma cut_without_slash (b : string) :
  PyStr.has_char "/" b = false -> OsPath.cut b = (EmptyString, b).
Proof.
  induction b as [|c b IH]; simpl; [reflexivity|].
  intros H. apply orb_false_elim in H as [Hc Hb].
  now rewrite (IH Hb), Hc.
Qed.

(** A suffix without a slash stays in the base name. *)
Lemma cut_append (a b : string) :
  PyStr.has_char "/" b = false ->
  OsPath.cut (a ++ b) = (fst (OsPath.cut a), snd (OsPath.cut a) ++ b).
Proof.
  intros Hb. induction a as [|c a IH]; simpl.
  - now apply cut_without_slash.
  - rewrite IH. destruct (OsPath.cut a) as [[|x head] tail]; simpl;
      [destruct (Ascii.eqb c "/")|]; reflexivity.
Qed.

Lemma dirname_append (a b : string) :
  PyStr.has_char "/" b = false -> OsPath.dirname (a ++ b) = OsPath.dirname a.
Proof. intros Hb. unfold OsPath.dirname. now rewrite cut_append. Qed.

Lemma basename_append (a b : string) :
  PyStr.has_char "/" b = false ->
  OsPath.basename (a ++ b) = OsPath.basename a ++ b.
Proof. intros Hb. unfold OsPath.basename. now rewrite cut_append. Qed.

(** The base name of a name behind a slash is the name. *)
Lemma basename_behind_slash (a b : string) :
  PyStr.has_char "/" b = false -> OsPath.basename (a ++ "/" ++ b) = b.
Proof.
  intros Hb. rewrite <- append_assoc, basename_append by assumption.
  replace (OsPath.basename (a ++ "/")) with EmptyString; [reflexivity|].
  unfold OsPath.basename.
  induction a as [|c a IH]; simpl; [reflexivity|].
  destruct (OsPath.cut (a ++ "/")) as [[|x head] tail] eqn:E; simpl in *.
  - exfalso. clear IH. revert tail E.
    induction a as [|d a IHa]; simpl; intros tail E; [discriminate|].
    destruct (OsPath.cut (a ++ "/")) as [[|y head'] tail'] eqn:E'.
    + now apply (IHa tail').
    + discriminate.
  - assumption.
Qed.






End PathFacts.

(** [makedirs] succeeds when the name is not empty and no regular file
    is in the way. *)
Lemma makedirs_ok (name : string) (w : World) :
  name <> "" ->
  Forall (fun d => files w !! d = None) (Os.ancestors name) ->
  Os.makedirs name w
  = (log (EvMakedirs name)
       (mkWorld (files w) (dirs w ∪ list_to_set (Os.ancestors name)) (trace w)),
     Ok tt).
Proof.
  intros Hne Hfree. unfold Os.makedirs.
  destruct name as [|c name]; [congruence|].
  destruct (List.find _ _) as [d|] eqn:E; [|reflexivity].
  apply find_some in E as [Hin Hd].
  rewrite Forall_forall in Hfree.
  rewrite (Hfree d) in Hd by now apply list_elem_of_In.
  apply bool_decide_eq_true in Hd. destruct Hd as [? Hd]. discriminate Hd.
Qed.

(** ** The outcomes of [save] *)

(** The loader on an available document: the cache holds the document
    afterwards, and the files and directories are as before. *)
Lemma get_svg_loaded (m : Machine) (text : string) :
  document m text ->
  exists m',
    __get_svg m = (m', Ok text)
    /\ gen m' = mkGenImages (svg_src (gen m)) (Some text)
    /\ files (world m') = files (world m)
    /\ dirs (world m') = dirs (world m)
    /\ writes (world m') = writes (world m).
Proof.
  unfold document. destruct (_svg_cache (gen m)) as [cached|] eqn:Hc; intros H.
  - subst cached. exists m. rewrite (get_svg_cached m text Hc).
    repeat split. destruct m as [[src cache] w]. cbn in *. now subst.
  - eexists. split; [now apply get_svg_first|]. cbn [gen world].
    rewrite writes_log. cbn [log files dirs is_write]. repeat split. lia.
Qed.

Section SaveOutcomes.

Variable svg2png : string -> Z -> Z -> option string -> result string.

(** What [save] needs from the world to get as far as the rasteriser. *)
Lemma save_until_render (foreground_color output : string) (output_width : Z)
    (ext : string) (background_color : option string) (m : Machine) (text : string) :
  OsPath.dirname output <> "" ->
  Forall (fun d => files (world m) !! d = None)
         (Os.ancestors (OsPath.dirname output)) ->
  document m text ->
  exists m2,
    gen m2 = mkGenImages (svg_src (gen m)) (Some text)
    /\ files (world m2) = files (world m)
    /\ dirs (world m2)
       = dirs (world m) ∪ list_to_set (Os.ancestors (OsPath.dirname output))
    /\ writes (world m2) = writes (world m)
    /\ save svg2png foreground_color output output_width ext background_color m
       = let bytestring :=
           PyStr.replace text default_original_color foreground_color in
         let w3 :=
           log (EvRender bytestring output_width 1 background_color) (world m2) in
         match svg2png bytestring output_width 1 background_color with
         | Raise e => (mkMachine (gen m2) w3, Raise e)
         | Ok png_data =>
             let (w4, r) := Os.write_file (output ++ "." ++ ext) png_data w3 in
             (mkMachine (gen m2) w4, r)
         end.
Proof.
  intros Hne Hfree Hdoc.
  rewrite save_unfold, (makedirs_ok _ _ Hne Hfree).
  set (w1 := log _ _).
  assert (Hdoc1 : document (mkMachine (gen m) w1) text).
  { unfold document in *. cbn [gen world]. destruct (_svg_cache (gen m)); assumption. }
  destruct (get_svg_loaded _ _ Hdoc1) as (m2 & Hget & Hgen & Hfiles & Hdirs & Hwr).
  exists m2. rewrite Hget. cbn [gen world] in *.
  repeat split; try assumption.
  rewrite Hwr. subst w1. rewrite writes_log. unfold writes. simpl. lia.
Qed.


End SaveOutcomes.





(** X5. An exception of the rasteriser goes through [save]: [save]
    raises it, writes no file and leaves the files as they were; the
    directory of [output] is made and the document is cached by then. *)
Theorem save_render_error
    (svg2png : string -> Z -> Z -> option string -> result string)
    (foreground_color output : string) (output_width : Z) (ext : string)
    (background_color : option string) (m : Machine) (text : string) (e : exn) :
  OsPath.dirname output <> "" ->
  Forall (fun d => files (world m) !! d = None)
         (Os.ancestors (OsPath.dirname output)) ->
  document m text ->
  svg2png (PyStr.replace text "#0063be" foreground_color)
          output_width 1 background_color = Raise e ->
  exists m',
    save svg2png foreground_color output output_width ext background_color m
    = (m', Raise e)
    /\ files (world m') = files (world m)
    /\ writes (world m') = writes (world m)
    /\ OsPath.dirname output ∈ dirs (world m')
    /\ _svg_cache (gen m') = Some text.
Proof.
  intros Hne Hfree Hdoc Hrnd.
  destruct (save_until_render svg2png foreground_color output output_width ext
              background_color m text Hne Hfree Hdoc)
    as (m2 & Hgen & Hfiles & Hdirs & Hwr & ->).
  cbv zeta. change default_original_color with "#0063be". rewrite Hrnd.
  eexists. split; [reflexivity|]. cbn [gen world].
  rewrite writes_log. cbn [log files dirs is_write]. rewrite Hfiles, Hdirs, Hgen, Hwr.
  repeat split; [lia|].
  apply elem_of_union_r, elem_of_list_to_set.
  unfold Os.ancestors. cbn [Os.chain].
  destruct (OsPath.dirname output); [congruence|].
  destruct (String.eqb _ _); apply list_elem_of_here.
Qed.

Lemma save_render_error_witness :
  exists m',
    save (fun _ _ _ _ => Raise RenderError) "#FFF" "logo/standar/white-512" 512
         "png" None demo_machine
    = (m', Raise RenderError)
    /\ files (world m') = files demo_world
    /\ writes (world m') = 0%nat
    /\ "logo/standar" ∈ dirs (world m')
    /\ _svg_cache (gen m') = Some "<path fill='#0063be'/><path fill='#0063BE'/>".
Proof.
  apply (save_render_error (fun _ _ _ _ => Raise RenderError) "#FFF"
           "logo/standar/white-512" 512 "png" None demo_machine
           "<path fill='#0063be'/><path fill='#0063BE'/>" RenderError).
  - discriminate.
  - repeat constructor.
  - reflexivity.
  - reflexivity.
Defined.

(** X6. A call of [save] that returns has made the directory of
    [output], then loaded the document (reading the source file if it was
    not cached), then called the rasteriser with the recoloured document,
    the width, the scale 1 and the background, then written its result to
    [output.ext]; it has done nothing else. *)
Theorem save_effects_in_order
    (svg2png : string -> Z -> Z -> option string -> result string)
    (foreground_color output : string) (output_width : Z) (ext : string)
    (background_color : option string) (m m' : Machine) :
  save svg2png foreground_color output output_width ext background_color m
  = (m', Ok tt) ->
  exists text png_data,
    document m text
    /\ svg2png (PyStr.replace text "#0063be" foreground_color)
               output_width 1 background_color = Ok png_data
    /\ trace (world m')
       = (trace (world m)
          ++ EvMakedirs (OsPath.dirname output)
          :: match _svg_cache (gen m) with
             | Some _ => []
             | None => [EvRead (svg_src (gen m))]
             end
          ++ [EvRender (PyStr.replace text "#0063be" foreground_color)
                       output_width 1 background_color;
              EvWrite (output ++ "." ++ ext) png_data])%list.
Proof.
  intros Hsave. rewrite save_unfold in Hsave.
  pose proof (makedirs_effect (OsPath.dirname output) (world m)) as Hmk.
  destruct (Os.makedirs _ _) as [w1 [[]|e]] eqn:Emk; [|discriminate].
  cbn [fst snd] in Hmk. destruct Hmk as (Hf1 & _ & _ & Hmk).
  destruct (Hmk eq_refl) as (_ & _ & Htr1). clear Hmk.
  destruct (__get_svg _) as [m2 [text|e]] eqn:Eget; [|discriminate].
  cbv zeta in Hsave.
  destruct (svg2png _ _ _ _) as [png_data|e] eqn:Ernd; [|discriminate].
  pose proof (write_file_effect (output ++ "." ++ ext) png_data
                (log (EvRender (PyStr.replace text default_original_color
                                  foreground_color)
                        output_width 1 background_color) (world m2))) as Hwr.
  destruct (Os.write_file _ _ _) as [w4 r]. injection Hsave as <- ->.
  cbn [fst snd] in Hwr. destruct Hwr as (_ & _ & Hwr).
  destruct (Hwr eq_refl) as (_ & Htr4). clear Hwr.
  exists text, png_data. cbn [world]. rewrite Htr4. cbn [log trace].
  change default_original_color with "#0063be" in *.
  split; [|split; [exact Ernd|]].
  - apply get_svg_returns_document in Eget. unfold document in *.
    cbn [gen world] in Eget. destruct (_svg_cache (gen m)); [assumption|].
    now rewrite <- Hf1.
  - destruct (_svg_cache (gen m)) as [cached|] eqn:Hc.
    + rewrite (get_svg_cached _ cached) in Eget by exact Hc.
      injection Eget as <- _. cbn [world]. rewrite Htr1.
      now rewrite <- !app_assoc.
    + destruct (files w1 !! svg_src (gen m)) as [loaded|] eqn:Hf.
      * rewrite (get_svg_first _ loaded) in Eget by assumption.
        injection Eget as <- _. cbn [world log trace gen]. rewrite Htr1.
        now rewrite <- !app_assoc.
      * rewrite get_svg_missing in Eget by assumption. discriminate Eget.
Qed.

Lemma save_effects_in_order_witness :
  trace (world (fst (save demo_svg2png "#FFF" "logo/standar/white-512" 512 "png"
                          None demo_machine)))
  = [EvMakedirs "logo/standar";
     EvRead "./logo/asset-svg/logo.svg";
     EvRender "<path fill='#FFF'/><path fill='#0063BE'/>" 512 1 None;
     EvWrite "logo/standar/white-512.png"
             "PNG 512 <path fill='#FFF'/><path fill='#0063BE'/>"].
Proof.
  destruct (save_effects_in_order demo_svg2png "#FFF" "logo/standar/white-512" 512
              "png" None demo_machine
              (fst (save demo_svg2png "#FFF" "logo/standar/white-512" 512 "png"
                         None demo_machine)))
    as (text & png_data & Hdoc & Hrnd & Htrace).
  - vm_compute. reflexivity.
  - reflexivity.
Defined.



(** ** A run of the batch that returns *)


Section Flat.

Variable svg2png : string -> Z -> Z -> option string -> result string.



End Flat.

Lemma emitted_tagged_flat (mapping : gmap string string)
    (color_list : list string) (size_list : list Z) :
  emitted_tagged mapping color_list size_list
  = flat_map (tagged_of mapping) (pairs color_list size_list).
Proof.
  unfold emitted_tagged, pairs.
  induction color_list as [|color cs IH]; cbn [flat_map]; [reflexivity|].
  rewrite flat_map_app, IH. f_equal. clear IH.
  induction size_list as [|size ss IHs]; cbn [flat_map map]; [reflexivity|].
  now rewrite IHs.
Qed.

Section TurnReturns.

Variable svg2png : string -> Z -> Z -> option string -> result string.




End TurnReturns.

(** The colours and sizes of the script: every colour has a name, no
    name and no size brings a slash into a path, and no path is one of
    the directories of the logos. *)
Lemma turn_facts (turn : string * Z) :
  In turn (pairs colors sizes) ->
  exists color_type,
    COLOR_MAPPING !! fst turn = Some color_type
    /\ PyStr.has_char "/" color_type = false
    /\ PyStr.has_char "/" (PyStr.of_int (snd turn)) = false
    /\ (forall p, In p (emitted (fst turn) color_type (snd turn)) ->
                  ~ In p logo_dirs).
Proof.
  intros Hturn. vm_compute in Hturn.
  repeat (destruct Hturn as [<-|Hturn];
          [eexists; split; [vm_compute; reflexivity|];
           split; [reflexivity|]; split; [reflexivity|];
           intros p Hp Hd; vm_compute in Hp, Hd;
           first [ destruct Hp as [<-|[]];
                   destruct Hd as [Hd|[Hd|[Hd|[]]]]; discriminate Hd
                 | destruct Hp ]|]).
  destruct Hturn.
Qed.



Lemma in_emitted_tagged (C : string) (S : Z) (p : string) :
  In (C, S, p) (emitted_tagged COLOR_MAPPING colors sizes)
  <-> In (C, S) (pairs colors sizes) /\ In p (emitted_in COLOR_MAPPING C S).
Proof.
  rewrite emitted_tagged_flat, in_flat_map. unfold tagged_of. split.
  - intros ([C' S'] & Hturn & Hin). apply in_map_iff in Hin as (p' & Heq & Hp).
    cbn [fst snd] in *. injection Heq as -> -> ->. now split.
  - intros [Hturn Hp]. exists (C, S). split; [exact Hturn|].
    apply in_map_iff. now exists p.
Qed.

Section BatchReturns.

Variable svg2png : string -> Z -> Z -> option string -> result string.



End BatchReturns.



(** ** What a run never does *)

Section Keeps.

Variable R : Machine -> Machine -> Prop.
Hypothesis R_refl : forall m, R m m.
Hypothesis R_trans : forall m1 m2 m3, R m1 m2 -> R m2 m3 -> R m1 m3.

Lemma keeps_ret {A} (a : A) : keeps R (ret a).
Proof. intros m. apply R_refl. Qed.

Lemma keeps_raise {A} (e : exn) : keeps R (@raise A e).
Proof. intros m. apply R_refl. Qed.

Lemma keeps_bind {A B} (c : M A) (k : A -> M B) :
  keeps R c -> (forall a, keeps R (k a)) -> keeps R (bind c k).
Proof.
  intros Hc Hk m. unfold bind. specialize (Hc m).
  destruct (c m) as [m1 [a|e]]; cbn [fst] in *; [|exact Hc].
  apply (R_trans _ m1); [exact Hc | apply Hk].
Qed.

Lemma keeps_for_fold {A S} (xs : list A) (body : A -> S -> M S) :
  (forall x acc, In x xs -> keeps R (body x acc)) ->
  forall acc, keeps R (for_fold xs body acc).
Proof.
  induction xs as [|x xs IH]; intros Hbody acc; cbn [for_fold].
  - apply keeps_ret.
  - apply keeps_bind; [apply Hbody; now left|].
    intros acc'. apply IH. intros y acc'' Hy. apply Hbody. now right.
Qed.

End Keeps.

Lemma cache_step_refl (m : Machine) : cache_step m m.
Proof.
  split; [reflexivity|]. destruct (_svg_cache (gen m)); auto.
Qed.

Lemma cache_step_trans (m1 m2 m3 : Machine) :
  cache_step m1 m2 -> cache_step m2 m3 -> cache_step m1 m3.
Proof.
  unfold cache_step. intros [Hs12 H12] [Hs23 H23].
  split; [congruence|].
  destruct (_svg_cache (gen m1)) as [t1|].
  - destruct H12 as [Hc Hr]. rewrite Hc in H23. destruct H23 as [Hc' Hr'].
    split; congruence.
  - destruct H12 as [[Hc Hr]|[[t2 Hc] Hr]]; rewrite Hc in H23.
    + destruct H23 as [[Hc' Hr']|[Hc' Hr']]; [left|right]; split; congruence.
    + destruct H23 as [Hc' Hr']. right. split; [eauto|congruence].
Qed.



Section Never.

Variable svg2png : string -> Z -> Z -> option string -> result string.



(** One turn of the inner loop moves the cache by [cache_step]. *)
Lemma logo_step_cache_step (color color_type : string) (size : Z)
    (acc : list string) :
  keeps cache_step (logo_step svg2png color color_type size acc).
Proof.
  unfold logo_step.
  apply keeps_bind; [apply cache_step_trans| |].
  - destruct (_ && _); [|apply keeps_ret, cache_step_refl].
    apply keeps_bind; [apply cache_step_trans| |intros; apply keeps_ret, cache_step_refl].
    intros m. apply save_cache_step.
  - intros acc'. destruct (size >=? 512); [|apply keeps_ret, cache_step_refl].
    apply keeps_bind; [apply cache_step_trans| |intros; apply keeps_ret, cache_step_refl].
    intros m. apply save_cache_step.
Qed.

Lemma generate_logos_loop_cache_step (mapping : gmap string string)
    (color_list : list string) (size_list : list Z) :
  keeps cache_step (generate_logos_loop svg2png mapping color_list size_list).
Proof.
  unfold generate_logos_loop.
  apply keeps_for_fold; [apply cache_step_refl|apply cache_step_trans|].
  intros color acc _. unfold color_step.
  apply keeps_bind; [apply cache_step_trans| |].
  - destruct (mapping !! color);
      [apply keeps_ret|apply keeps_raise]; apply cache_step_refl.
  - intros color_type.
    apply keeps_for_fold; [apply cache_step_refl|apply cache_step_trans|].
    intros size acc' _. apply logo_step_cache_step.
Qed.


End Never.



(** X10. Whatever happens, a run of [generate_logos] reads the source
    file at most once, and not at all when the document is cached
    already; a cached document stays in the cache, and the object keeps
    its source path. *)
Theorem generate_logos_reads_once
    (svg2png : string -> Z -> Z -> option string -> result string)
    (m : Machine) :
  let m' := fst (generate_logos svg2png m) in
  (reads (world m') <= S (reads (world m)))%nat
  /\ svg_src (gen m') = svg_src (gen m)
  /\ (forall text,
        _svg_cache (gen m) = Some text ->
        _svg_cache (gen m') = Some text /\ reads (world m') = reads (world m)).
Proof.
  intros m'.
  destruct (generate_logos_loop_cache_step svg2png COLOR_MAPPING colors sizes m)
    as [Hsrc Hstep].
  fold (generate_logos svg2png) in Hsrc, Hstep. fold m' in Hsrc, Hstep.
  split; [|split; [exact Hsrc|]].
  - destruct (_svg_cache (gen m)); [lia|]. destruct Hstep as [[_ ?]|[_ ?]]; lia.
  - intros text Hc. now rewrite Hc in Hstep.
Qed.

Lemma generate_logos_reads_once_witness :
  reads (world (fst (generate_logos demo_svg2png demo_machine))) = 1%nat
  /\ _svg_cache (gen (fst (generate_logos demo_svg2png
                             (fst (__get_svg demo_machine)))))
     = Some "<path fill='#0063be'/><path fill='#0063BE'/>".
Proof.
  split; [vm_compute; reflexivity|].
  apply (generate_logos_reads_once demo_svg2png (fst (__get_svg demo_machine))).
  reflexivity.
Defined.

(** ** A run without the source document *)




(** ** A whole run *)




(** X13. A run of [main] that returns has written the report last and
    once: its last effect is the write of [./README.md], whose content is
    the header followed by the rows of the 23 paths in the order of the
    loops. *)
Theorem main_report
    (svg2png : string -> Z -> Z -> option string -> result string)
    (w : World) (m' : Machine) :
  main svg2png w = (m', Ok tt) ->
  let report :=
    readme_header
    ++ PyStr.concat
         (map readme_row (map snd (emitted_tagged COLOR_MAPPING colors sizes))) in
  files (world m') !! "./README.md" = Some report
  /\ List.last (trace (world m')) (EvRead "") = EvWrite "./README.md" report
  /\ length (map readme_row (map snd (emitted_tagged COLOR_MAPPING colors sizes)))
     = 23%nat.
Proof.
  intros Hmain report. revert Hmain. unfold main, bind.
  destruct (generate_logos svg2png _) as [m1 [generated_files|e]] eqn:Hrun;
    [|discriminate].
  intros Hwrite.
  apply generate_logos_loop_returns in Hrun as (_ & ->).
  apply write_readme_rows_content in Hwrite as (Hfile & Htrace).
  rewrite <- emitted_tagged_paths in Hfile, Htrace.
  split; [exact Hfile|]. split; [|reflexivity].
  rewrite Htrace. apply last_last.
Qed.

Lemma main_report_witness :
  List.last (trace (world (fst (main demo_svg2png demo_world)))) (EvRead "")
  = EvWrite "./README.md"
      (readme_header
       ++ PyStr.concat
            (map readme_row (map snd (emitted_tagged COLOR_MAPPING colors sizes)))).
Proof.
  apply (main_report demo_svg2png demo_world (fst (main demo_svg2png demo_world))).
  vm_compute. reflexivity.
Defined.

(** X14. In the report the size label of every image is its size: for
    every path that [generate_logos] emits for a colour and a size, the
    label taken from the base name of the path is the decimal writing of
    the size. *)
Theorem readme_labels_are_sizes (C : string) (S : Z) (p : string) :
  In (C, S, p) (emitted_tagged COLOR_MAPPING colors sizes) ->
  In S sizes /\ size_label (OsPath.basename p) = PyStr.of_int S.
Proof.
  intros Hin. vm_compute in Hin.
  repeat (destruct Hin as [Heq|Hin];
          [injection Heq as <- <- <-; split; [vm_compute; tauto|reflexivity]|]).
  destruct Hin.
Qed.

Lemma readme_labels_are_sizes_witness :
  In 2048 sizes
  /\ size_label (OsPath.basename "logo/standar/secondary-2048.png") = PyStr.of_int 2048.
Proof.
  apply (readme_labels_are_sizes "#3E78B2" 2048 "logo/standar/secondary-2048.png").
  vm_compute. tauto.
Defined.

(** X15. A row of the report depends on the base name of the path only:
    the directory of an image is dropped, so the row of [d/name] is the
    row of [name], and its addresses point into [logo/icon/] whatever
    [d] is. *)
Theorem readme_row_ignores_directory (d name : string) :
  PyStr.has_char "/" name = false ->
  readme_row (d ++ "/" ++ name) = readme_row name
  /\ OsPath.basename (d ++ "/" ++ name) = name.
Proof.
  intros Hname.
  assert (Hbase : OsPath.basename (d ++ "/" ++ name) = name)
    by now apply basename_behind_slash.
  assert (Hbase' : OsPath.basename name = name)
    by (unfold OsPath.basename; now rewrite cut_without_slash).
  split; [|exact Hbase].
  unfold readme_row. now rewrite Hbase, Hbase'.
Qed.

Lemma readme_row_ignores_directory_witness :
  readme_row ("logo/favicon" ++ "/" ++ "favicon-16.png") = readme_row "favicon-16.png"
  /\ OsPath.basename ("logo/favicon" ++ "/" ++ "favicon-16.png") = "favicon-16.png".
Proof.
  apply (readme_row_ignores_directory "logo/favicon" "favicon-16.png").
  reflexivity.
Defined.

(** X16. For a base name without [-] the size label is not a size: it is
    the part of the whole name before its first [.], and the whole name
    when there is no [.] either. *)
Theorem size_label_without_dash (stem ext : string) :
  PyStr.has_char "-" stem = false ->
  PyStr.has_char "." stem = false ->
  PyStr.has_char "-" ext = false ->
  size_label (stem ++ "." ++ ext) = stem /\ size_label stem = stem.
Proof.
  intros Hdash Hdot Hext. unfold size_label. split.
  - rewrite (split_without "-" (stem ++ "." ++ ext)).
    + cbn [List.last].
      change (stem ++ "." ++ ext) with (stem ++ String "." ext).
      now rewrite split_append, (split_without "." stem).
    + rewrite has_char_append, Hdash.
      change ("." ++ ext) with (String "." ext). cbn [PyStr.has_char].
      now rewrite Hext.
  - rewrite (split_without "-" stem) by assumption. cbn [List.last].
    now rewrite (split_without "." stem).
Qed.

Lemma size_label_without_dash_witness :
  size_label ("logo" ++ "." ++ "png") = "logo" /\ size_label "logo" = "logo".
Proof.
  apply (size_label_without_dash "logo" "png"); reflexivity.
Defined.

(** ** The effects of a run *)

Lemma extends_refl (P : event -> Prop) (src : string) (m : Machine) :
  extends P src m m.
Proof.
  intros Hsrc. split; [exact Hsrc|]. exists []. now rewrite app_nil_r.
Qed.

Lemma extends_trans (P : event -> Prop) (src : string) (m1 m2 m3 : Machine) :
  extends P src m1 m2 -> extends P src m2 m3 -> extends P src m1 m3.
Proof.
  intros H12 H23 Hsrc.
  destruct (H12 Hsrc) as (Hsrc2 & evs1 & Ht1 & HP1).
  destruct (H23 Hsrc2) as (Hsrc3 & evs2 & Ht2 & HP2).
  split; [exact Hsrc3|]. exists (evs1 ++ evs2)%list.
  split; [now rewrite Ht2, Ht1, app_assoc|]. now apply Forall_app.
Qed.

Lemma extends_impl (P Q : event -> Prop) (src : string) (m m' : Machine) :
  (forall e, P e -> Q e) -> extends P src m m' -> extends Q src m m'.
Proof.
  intros HPQ H Hsrc. destruct (H Hsrc) as (Hsrc' & evs & Ht & HP).
  split; [exact Hsrc'|]. exists evs. split; [exact Ht|].
  eapply Forall_impl; eassumption.
Qed.

Lemma makedirs_trace (name : string) (w : World) :
  exists evs,
    trace (fst (Os.makedirs name w)) = (trace w ++ evs)%list
    /\ Forall (fun e => e = EvMakedirs name) evs.
Proof.
  unfold Os.makedirs. destruct name as [|c name].
  - exists []. now rewrite app_nil_r.
  - destruct (List.find _ _).
    + exists []. now rewrite app_nil_r.
    + exists [EvMakedirs (String c name)]. split; [reflexivity|]. now constructor.
Qed.

Lemma get_svg_trace (m : Machine) :
  svg_src (gen (fst (__get_svg m))) = svg_src (gen m)
  /\ exists evs,
       trace (world (fst (__get_svg m))) = (trace (world m) ++ evs)%list
       /\ Forall (fun e => e = EvRead (svg_src (gen m))) evs.
Proof.
  unfold __get_svg, Os.read_text. unfold_m.
  destruct (_svg_cache (gen m)).
  - split; [reflexivity|]. exists []. now rewrite app_nil_r.
  - destruct (files (world m) !! svg_src (gen m)); cbn [fst gen world svg_src].
    + split; [reflexivity|]. exists [EvRead (svg_src (gen m))].
      split; [reflexivity|]. now constructor.
    + split; [reflexivity|]. exists []. now rewrite app_nil_r.
Qed.

Lemma write_file_trace (path data : string) (w : World) :
  exists evs,
    trace (fst (Os.write_file path data w)) = (trace w ++ evs)%list
    /\ Forall (fun e => e = EvWrite path data) evs.
Proof.
  unfold Os.write_file.
  destruct (bool_decide _); [exists []; now rewrite app_nil_r|].
  destruct (bool_decide _); [|exists []; now rewrite app_nil_r].
  exists [EvWrite path data]. split; [reflexivity|]. now constructor.
Qed.

Section Effects.

Variable svg2png : string -> Z -> Z -> option string -> result string.

(** The effects of a call of [save], whether it returns or raises. *)
Lemma save_extends (src foreground_color output : string) (output_width : Z)
    (ext : string) (background_color : option string) :
  keeps (extends (save_effect src output output_width ext background_color) src)
        (save svg2png foreground_color output output_width ext background_color).
Proof.
  intros m Hsrc. rewrite save_unfold.
  destruct (makedirs_trace (OsPath.dirname output) (world m)) as (evs1 & Ht1 & HP1).
  destruct (Os.makedirs _ _) as [w1 r1]. cbn [fst] in Ht1.
  assert (H1 : Forall (save_effect src output output_width ext background_color) evs1).
  { eapply Forall_impl; [exact HP1|]. now intros e ->. }
  destruct r1 as [[]|e]; cbn [fst gen world];
    [|split; [exact Hsrc|now exists evs1]].
  destruct (get_svg_trace (mkMachine (gen m) w1)) as (Hsrc2 & evs2 & Ht2 & HP2).
  destruct (__get_svg _) as [m2 r2]. cbn [fst gen world] in Hsrc2, Ht2, HP2.
  assert (H2 : Forall (save_effect src output output_width ext background_color) evs2).
  { eapply Forall_impl; [exact HP2|]. intros e ->. exact Hsrc. }
  destruct r2 as [text|e]; cbn [fst];
    [|split; [congruence|exists (evs1 ++ evs2)%list;
                         split; [now rewrite Ht2, Ht1, app_assoc|now apply Forall_app]]].
  cbv zeta.
  set (rendered := EvRender _ output_width 1 background_color).
  assert (H3 : save_effect src output output_width ext background_color rendered)
    by (subst rendered; cbn; auto).
  destruct (svg2png _ _ _ _) as [png_data|e]; cbn [fst gen world].
  - destruct (write_file_trace (output ++ "." ++ ext) png_data (log rendered (world m2)))
      as (evs4 & Ht4 & HP4).
    destruct (Os.write_file _ _ _) as [w4 r4]. cbn [fst gen world] in *.
    split; [congruence|]. exists (evs1 ++ evs2 ++ rendered :: evs4)%list.
    split.
    + rewrite Ht4. cbn [log trace]. rewrite Ht2, Ht1.
      rewrite <- !app_assoc. reflexivity.
    + apply Forall_app. split; [exact H1|]. apply Forall_app. split; [exact H2|].
      constructor; [exact H3|]. eapply Forall_impl; [exact HP4|]. now intros e ->.
  - split; [congruence|]. exists (evs1 ++ evs2 ++ [rendered])%list.
    split.
    + cbn [log trace]. rewrite Ht2, Ht1. rewrite <- !app_assoc. reflexivity.
    + apply Forall_app. split; [exact H1|]. apply Forall_app. split; [exact H2|].
      now constructor.
Qed.

(** The effects of one turn of the loops of the script. *)
Lemma pair_turn_extends (src : string) (turn : string * Z) (color_type : string)
    (acc : list string) :
  In turn (pairs colors sizes) ->
  COLOR_MAPPING !! fst turn = Some color_type ->
  keeps (extends (batch_effect src) src)
        (logo_step svg2png (fst turn) color_type (snd turn) acc).
Proof.
  intros Hturn Hname.
  destruct (turn_facts turn Hturn) as (name & Hname' & Hslash & Hsize & _).
  rewrite Hname in Hname'. injection Hname' as <-.
  assert (Hpaths : forall p, In p (emitted (fst turn) color_type (snd turn)) ->
                             In p (map snd (emitted_tagged COLOR_MAPPING colors sizes))).
  { intros p Hp. apply in_map_iff. exists (fst turn, snd turn, p).
    split; [reflexivity|]. apply in_emitted_tagged.
    split; [now destruct turn|]. unfold emitted_in. now rewrite Hname. }
  assert (Hsizes : In (snd turn) sizes).
  { unfold pairs in Hturn. apply in_flat_map in Hturn as (color & _ & Hin).
    apply in_map_iff in Hin as (size & <- & Hin). exact Hin. }
  destruct turn as [C S]. cbn [fst snd] in *.
  unfold logo_step, emitted, default_ext in *.
  apply keeps_bind; [apply extends_trans| |].
  - destruct ((S <=? 128) && String.eqb C "#0063BE");
      [|apply keeps_ret, extends_refl].
    apply keeps_bind;
      [apply extends_trans| |intros; apply keeps_ret, extends_refl].
    intros m. eapply extends_impl; [|apply save_extends].
    intros [path|d|text width scale bg|path data]; cbn.
    + auto.
    + intros ->. left. now rewrite dirname_append.
    + intros (-> & -> & ->). auto.
    + intros ->. apply Hpaths, in_or_app. left. left. now rewrite append_assoc.
  - intros acc'. destruct (S >=? 512); [|apply keeps_ret, extends_refl].
    apply keeps_bind;
      [apply extends_trans| |intros; apply keeps_ret, extends_refl].
    intros m. eapply extends_impl; [|apply save_extends].
    intros [path|d|text width scale bg|path data]; cbn.
    + auto.
    + intros ->. right. rewrite dirname_append; [reflexivity|].
      rewrite has_char_append, Hslash.
      change ("-" ++ PyStr.of_int S) with (String "-" (PyStr.of_int S)).
      cbn [PyStr.has_char]. now rewrite Hsize.
    + intros (-> & -> & ->). auto.
    + intros ->. apply Hpaths, in_or_app. right. left. now rewrite !append_assoc.
Qed.

Lemma generate_logos_extends (src : string) :
  keeps (extends (batch_effect src) src) (generate_logos svg2png).
Proof.
  unfold generate_logos, generate_logos_loop.
  apply keeps_for_fold; [apply extends_refl|apply extends_trans|].
  intros color acc Hcolor m. unfold color_step, bind.
  destruct (COLOR_MAPPING !! color) as [color_type|] eqn:Hname; cbn [ret raise fst];
    [|apply extends_refl].
  apply (keeps_for_fold (extends (batch_effect src) src)
           (extends_refl _ src) (extends_trans _ src)).
  intros size acc' Hsize.
  apply (pair_turn_extends src (color, size)); [|exact Hname].
  unfold pairs. apply in_flat_map. exists color. split; [exact Hcolor|].
  now apply in_map.
Qed.

End Effects.

(** X17. Whatever happens, the effects of a run of [generate_logos] are
    of four kinds only: it makes the directory [logo/favicon] or
    [logo/standar], it reads the source file of the object, it calls the
    rasteriser with a width of [sizes], the scale 1 and no background,
    and it writes one of the 23 paths of the images.  The object keeps
    its source file. *)
Theorem generate_logos_effects
    (svg2png : string -> Z -> Z -> option string -> result string)
    (m : Machine) :
  let m' := fst (generate_logos svg2png m) in
  svg_src (gen m') = svg_src (gen m)
  /\ exists evs,
       trace (world m') = (trace (world m) ++ evs)%list
       /\ forall e, In e evs ->
            match e with
            | EvMakedirs d => d = "logo/favicon" \/ d = "logo/standar"
            | EvRead path => path = svg_src (gen m)
            | EvRender _ width scale background =>
                In width sizes /\ scale = 1 /\ background = None
            | EvWrite path _ =>
                In path (map snd (emitted_tagged COLOR_MAPPING colors sizes))
            end.
Proof.
  intros m'.
  destruct (generate_logos_extends svg2png (svg_src (gen m)) m eq_refl)
    as (Hsrc & evs & Htrace & Hall).
  split; [exact Hsrc|]. exists evs. split; [exact Htrace|].
  intros e He. rewrite Forall_forall in Hall.
  apply (Hall e). now apply list_elem_of_In.
Qed.

Lemma generate_logos_effects_witness :
  exists evs,
    trace (world (fst (generate_logos demo_svg2png demo_machine))) = evs
    /\ length evs = 70%nat
    /\ ~ In (EvWrite "./logo/asset-svg/logo.svg" "") evs.
Proof.
  destruct (generate_logos_effects demo_svg2png demo_machine)
    as (_ & evs & Htrace & Hall).
  exists evs. cbn [demo_machine world demo_world trace app] in Htrace.
  split; [exact Htrace|]. split.
  - rewrite <- Htrace. vm_compute. reflexivity.
  - intros Hin. apply Hall in Hin. vm_compute in Hin. intuition discriminate.
Defined.
